(** * Boards.h: the Firmata hardware abstraction layer of Adafruit_BLE_PinIO

    A shallow embedding of [src/Boards.h]: the board tables (the constants
    and the [IS_PIN_xxx] / [PIN_TO_xxx] macros of each [#if] branch) and the
    two port-access inline functions [readPort] and [writePort], followed by
    the properties the specification states about them.

    Integers are modelled in [Z].  A value stored into a [byte] or an
    [unsigned char] is reduced modulo 256 ([u8]); macro arguments are [int]
    expressions and stay unreduced, as after C's integer promotion. *)

From Stdlib Require Import ZArith List Bool Lia ZifyBool.
Import ListNotations.

Local Open Scope Z_scope.
Local Open Scope bool_scope.

(* ================================================================== *)
(** ** Machine bytes *)

(** Conversion to [uint8_t] / [byte] / [unsigned char]. *)
Definition u8 (x : Z) : Z := x mod 256.

Definition is_byte (x : Z) : Prop := 0 <= x < 256.

(** A C condition: any non-zero integer counts as true. *)
Definition truthy (x : Z) : bool := negb (x =? 0).

(* ================================================================== *)
(** ** Board specific configuration *)

(** The two [#if] branches of the board table.  [ATmega328P] stands for
    [__AVR_ATmega168__ || __AVR_ATmega328P__] (Duemilanove, Diecimila, NG),
    [ATmega2560] for [__AVR_ATmega1280__ || __AVR_ATmega2560__] (Mega). *)
Inductive mcu : Type := ATmega328P | ATmega2560.

(** What the preprocessor sees when the header is compiled: the target, the
    core's [NUM_ANALOG_INPUTS] if it defines one, and [MAX_SERVOS] (0 when
    Servo.h was not included). *)
Record build : Type := mkBuild {
  cpu : mcu;
  NUM_ANALOG_INPUTS : option Z;
  MAX_SERVOS : Z
}.

(** [defined(NUM_ANALOG_INPUTS) && NUM_ANALOG_INPUTS == 6] *)
Definition six_analog_inputs (b : build) : bool :=
  match NUM_ANALOG_INPUTS b with
  | Some n => n =? 6
  | None => false
  end.

Definition TOTAL_ANALOG_PINS (b : build) : Z :=
  match cpu b with
  | ATmega328P => if six_analog_inputs b then 6 else 8
  | ATmega2560 => 16
  end.

Definition TOTAL_PINS (b : build) : Z :=
  match cpu b with
  | ATmega328P => if six_analog_inputs b then 16 else 22
  | ATmega2560 => 70
  end.

Definition VERSION_BLINK_PIN (b : build) : Z :=
  match cpu b with
  | ATmega328P => 99
  | ATmega2560 => 13
  end.

Definition IS_PIN_DIGITAL (b : build) (p : Z) : bool :=
  match cpu b with
  | ATmega328P => ((p >=? 3) && (p <=? 8)) || ((p >=? 14) && (p <=? 19))
  | ATmega2560 => (p >=? 2) && (p <? TOTAL_PINS b)
  end.

Definition IS_PIN_ANALOG (b : build) (p : Z) : bool :=
  match cpu b with
  | ATmega328P => (p >=? 14) && (p <? 14 + TOTAL_ANALOG_PINS b)
  | ATmega2560 => (p >=? 54) && (p <? TOTAL_PINS b)
  end.

Definition IS_PIN_SERVO (b : build) (p : Z) : bool :=
  match cpu b with
  | ATmega328P => IS_PIN_DIGITAL b p && (p - 2 <? MAX_SERVOS b)
  | ATmega2560 => (p >=? 2) && (p - 2 <? MAX_SERVOS b)
  end.

Definition IS_PIN_I2C (b : build) (p : Z) : bool :=
  match cpu b with
  | ATmega328P => (p =? 18) || (p =? 19)
  | ATmega2560 => (p =? 20) || (p =? 21)
  end.

Definition PIN_TO_DIGITAL (b : build) (p : Z) : Z := p.

Definition PIN_TO_ANALOG (b : build) (p : Z) : Z :=
  match cpu b with
  | ATmega328P => p - 14
  | ATmega2560 => p - 54
  end.

Definition PIN_TO_PWM (b : build) (p : Z) : Z := PIN_TO_DIGITAL b p.

Definition PIN_TO_SERVO (b : build) (p : Z) : Z := p - 2.

(** [#define TOTAL_PORTS ((TOTAL_PINS + 7) / 8)] *)
Definition TOTAL_PORTS (b : build) : Z := (TOTAL_PINS b + 7) / 8.

(** [ARDUINO_PINOUT_OPTIMIZE] is [#define]d (as 0) in the ATmega168/328P
    branch only, and [writePort] tests it with [#if defined(...)]. *)
Definition ARDUINO_PINOUT_OPTIMIZE (b : build) : option Z :=
  match cpu b with
  | ATmega328P => Some 0
  | ATmega2560 => None
  end.

(** The three builds the table distinguishes, with the default
    [MAX_SERVOS]. *)
Definition uno : build := mkBuild ATmega328P (Some 6) 0.
Definition mini : build := mkBuild ATmega328P (Some 8) 0.
Definition mega : build := mkBuild ATmega2560 (Some 16) 0.

Definition with_servos (b : build) (n : Z) : build :=
  mkBuild (cpu b) (NUM_ANALOG_INPUTS b) n.

(** Protocol pin indices [0 .. TOTAL_PINS-1]. *)
Definition protocol_pins (b : build) : list Z :=
  map Z.of_nat (seq 0 (Z.to_nat (TOTAL_PINS b))).

Definition analog_pins (b : build) : list Z :=
  filter (IS_PIN_ANALOG b) (protocol_pins b).

(** [f] is the smallest index on which the predicate holds. *)
Definition least_pin (P : Z -> bool) (f : Z) : Prop :=
  P f = true /\ forall q, P q = true -> f <= q.

(** Servo capability for some value of [MAX_SERVOS]. *)
Definition servo_capable (b : build) (p : Z) : Prop :=
  exists n, IS_PIN_SERVO (with_servos b n) p = true.

Definition first_servo_pin (b : build) (f : Z) : Prop :=
  servo_capable b f /\ forall q, servo_capable b q -> f <= q.

(** The servo slot of [p] counted from the first servo-capable pin. *)
Definition servo_slot_from_first (b : build) (p : Z) : Prop :=
  forall f, first_servo_pin b f -> PIN_TO_SERVO b p = p - f.

(* ================================================================== *)
(** ** The platform underneath: single-pin primitives and AVR registers *)

(** The Arduino core's [digitalRead] and [digitalWrite], addressed by native
    pin number.  [digitalRead] yields [LOW] (0) or [HIGH] (1); [digitalWrite]
    drives the pin low when its value is 0 and high otherwise. *)
Class Platform (hw : Type) : Type := {
  digitalRead : Z -> hw -> Z;
  digitalWrite : Z -> Z -> hw -> hw
}.

Definition LOW : Z := 0.
Definition HIGH : Z := 1.

(** Calls the code makes on the platform, in program order. *)
Inductive event : Type :=
| EvRead (pin : Z)
| EvWrite (pin val : Z)
| EvCli
| EvSei.

Record world (hw : Type) : Type := mkWorld {
  dev : hw;
  trace : list event
}.
Arguments mkWorld {hw} _ _.
Arguments dev {hw} _.
Arguments trace {hw} _.

(** Statements and expressions with side effects: a state monad over the
    hardware and the call trace. *)
Definition io (hw A : Type) : Type := world hw -> A * world hw.

Definition ret {hw A} (a : A) : io hw A := fun w => (a, w).

Definition bind {hw A B} (c : io hw A) (k : A -> io hw B) : io hw B :=
  fun w => let (a, w') := c w in k a w'.

Notation "x <- c ;; k" := (bind c (fun x => k))
  (at level 61, c at next level, right associativity).
Notation "c ;; k" := (bind c (fun _ => k))
  (at level 61, right associativity).

(** What a call of a non-void function hands back: [Some v] after
    [return v;], [None] when control flows off the closing brace without
    meeting a [return] statement (the caller then sees no defined value). *)
Definition returned : Type := option Z.

(** The short-circuit [&&] of C: the right operand runs only when the left
    one is true. *)
Definition and_then {hw} (c : bool) (k : io hw bool) : io hw bool :=
  if c then k else ret false.

(** [if (c) s;] with no [else]. *)
Definition when {hw} (c : bool) (s : io hw unit) : io hw unit :=
  if c then s else ret tt.

(** [for (uint8_t i = lo; ...; i++) body], [n] iterations. *)
Fixpoint for_range {hw} (n : nat) (i : Z) (body : Z -> io hw unit)
  : io hw unit :=
  match n with
  | O => ret tt
  | S n' => body i ;; for_range n' (u8 (i + 1)) body
  end.

Section Calls.
Context {hw : Type} `{Platform hw}.

(** [digitalRead(uint8_t pin)] *)
Definition call_digitalRead (pin : Z) : io hw Z :=
  fun w => (digitalRead (u8 pin) (dev w),
            mkWorld (dev w) (trace w ++ [EvRead (u8 pin)])).

(** [digitalWrite(uint8_t pin, uint8_t val)] *)
Definition call_digitalWrite (pin val : Z) : io hw unit :=
  fun w => (tt,
            mkWorld (digitalWrite (u8 pin) (u8 val) (dev w))
                    (trace w ++ [EvWrite (u8 pin) (u8 val)])).
End Calls.

(** The ATmega168/328P output registers the fast path names. *)
Record avr : Type := mkAvr {
  PORTB : Z;
  PORTC : Z;
  PORTD : Z
}.

Definition get_PORTB : io avr Z := fun w => (PORTB (dev w), w).
Definition get_PORTC : io avr Z := fun w => (PORTC (dev w), w).
Definition get_PORTD : io avr Z := fun w => (PORTD (dev w), w).

(** Assignment to a [volatile uint8_t] register. *)
Definition set_PORTB (v : Z) : io avr unit :=
  fun w => (tt, mkWorld (mkAvr (u8 v) (PORTC (dev w)) (PORTD (dev w))) (trace w)).
Definition set_PORTC (v : Z) : io avr unit :=
  fun w => (tt, mkWorld (mkAvr (PORTB (dev w)) (u8 v) (PORTD (dev w))) (trace w)).
Definition set_PORTD (v : Z) : io avr unit :=
  fun w => (tt, mkWorld (mkAvr (PORTB (dev w)) (PORTC (dev w)) (u8 v)) (trace w)).

Definition cli : io avr unit :=
  fun w => (tt, mkWorld (dev w) (trace w ++ [EvCli])).
Definition sei : io avr unit :=
  fun w => (tt, mkWorld (dev w) (trace w ++ [EvSei])).

(** Where the Arduino core puts native pins 0..19 on this chip, which is
    also the layout the fast path of [writePort] is written for: pins 0-7 on
    PORTD, 8-13 on PORTB bits 0-5, 14-19 on PORTC bits 0-5. *)
Inductive reg : Type := RB | RC | RD.

Definition pin_bit (p : Z) : option (reg * Z) :=
  if (0 <=? p) && (p <=? 7) then Some (RD, p)
  else if (8 <=? p) && (p <=? 13) then Some (RB, p - 8)
  else if (14 <=? p) && (p <=? 19) then Some (RC, p - 14)
  else None.

Definition get_reg (r : reg) (h : avr) : Z :=
  match r with RB => PORTB h | RC => PORTC h | RD => PORTD h end.

Definition set_reg (r : reg) (v : Z) (h : avr) : avr :=
  match r with
  | RB => mkAvr (u8 v) (PORTC h) (PORTD h)
  | RC => mkAvr (PORTB h) (u8 v) (PORTD h)
  | RD => mkAvr (PORTB h) (PORTC h) (u8 v)
  end.

(** The core's primitives on this chip: [digitalWrite] clears or sets the
    pin's bit of its output register ([*out &= ~bit] / [*out |= bit]) and
    does nothing for a number that is no pin; [digitalRead] of a pin driven
    as an output samples that same bit. *)
Definition avr_digitalWrite (p v : Z) (h : avr) : avr :=
  match pin_bit p with
  | Some (r, k) =>
      if v =? LOW
      then set_reg r (Z.land (get_reg r h) (u8 (Z.lnot (Z.shiftl 1 k)))) h
      else set_reg r (Z.lor (get_reg r h) (Z.shiftl 1 k)) h
  | None => h
  end.

Definition avr_digitalRead (p : Z) (h : avr) : Z :=
  match pin_bit p with
  | Some (r, k) => if Z.testbit (get_reg r h) k then HIGH else LOW
  | None => LOW
  end.

#[export] Instance avr_platform : Platform avr :=
  {| digitalRead := avr_digitalRead; digitalWrite := avr_digitalWrite |}.

(** A board seen only through its pins: the level each native pin carries. *)
Definition pin_levels : Type := Z -> bool.

Definition levels_digitalWrite (p v : Z) (h : pin_levels) : pin_levels :=
  fun q => if q =? p then truthy v else h q.

Definition levels_digitalRead (p : Z) (h : pin_levels) : Z :=
  if h p then HIGH else LOW.

#[export] Instance levels_platform : Platform pin_levels :=
  {| digitalRead := levels_digitalRead; digitalWrite := levels_digitalWrite |}.

(** The hardware each target is modelled with. *)
Definition hardware (m : mcu) : Type :=
  match m with
  | ATmega328P => avr
  | ATmega2560 => pin_levels
  end.

Definition platform_of (m : mcu) : Platform (hardware m) :=
  match m with
  | ATmega328P => avr_platform
  | ATmega2560 => levels_platform
  end.
#[export] Existing Instance platform_of.

(* ================================================================== *)
(** ** readPort() - Read an 8 bit port *)

Section PortAccess.
Context {hw : Type} `{Platform hw}.
Variable b : build.

(** One line of [readPort]:
    [if (IS_PIN_DIGITAL(pin+k) && (bitmask & m)
         && digitalRead(PIN_TO_DIGITAL(pin+k))) out |= m;] *)
Definition read_line (pin bitmask k m out : Z) : io hw Z :=
  c <- and_then (IS_PIN_DIGITAL b (pin + k))
         (and_then (truthy (Z.land bitmask m))
            (v <- call_digitalRead (PIN_TO_DIGITAL b (pin + k)) ;;
             ret (truthy v))) ;;
  ret (if c then u8 (Z.lor out m) else out).

Definition readPort (port bitmask : Z) : io hw returned :=
  let out := 0 in
  let pin := u8 (port * 8) in
  out <- read_line pin bitmask 0 0x01 out ;;
  out <- read_line pin bitmask 1 0x02 out ;;
  out <- read_line pin bitmask 2 0x04 out ;;
  out <- read_line pin bitmask 3 0x08 out ;;
  out <- read_line pin bitmask 4 0x10 out ;;
  out <- read_line pin bitmask 5 0x20 out ;;
  out <- read_line pin bitmask 6 0x40 out ;;
  out <- read_line pin bitmask 7 0x80 out ;;
  ret (Some out).

(* ================================================================== *)
(** ** writePort() - Write an 8 bit port, only touch pins specified by a
       bitmask *)

(** The [#else] branch: one [digitalWrite] per masked digital pin.  The
    function body ends without a [return]. *)
Definition loop_body (pin value bitmask i : Z) : io hw unit :=
  when (truthy (Z.land bitmask (Z.shiftl 1 i)))
    (* dont touch non-digital pins *)
    (when (IS_PIN_DIGITAL b (pin + i))
       (call_digitalWrite (PIN_TO_DIGITAL b (pin + i))
                          (Z.land value (Z.shiftl 1 i)))).

Definition writePort_loop (port value bitmask : Z) : io hw returned :=
  let pin := u8 (port * 8) in
  for_range 8 0 (loop_body pin value bitmask) ;;
  ret None.

End PortAccess.

(** The [#if defined(ARDUINO_PINOUT_OPTIMIZE)] branch: read-modify-write of
    the output registers between [cli()] and [sei()].  It ends without a
    [return] as well. *)
Definition writePort_fast (port value bitmask : Z) : io avr returned :=
  (if port =? 0 then
     let bitmask := u8 (Z.land bitmask 0xFC) in (* do not touch Tx & Rx pins *)
     let valD := u8 (Z.land value bitmask) in
     let maskD := u8 (Z.lnot bitmask) in
     cli ;;
     d <- get_PORTD ;;
     set_PORTD (Z.lor (Z.land d maskD) valD) ;;
     sei
   else if port =? 1 then
     let valB := u8 (Z.land (Z.land value bitmask) 0x3F) in
     let valC := u8 (Z.shiftr (Z.land value bitmask) 6) in
     let maskB := u8 (Z.lnot (Z.land bitmask 0x3F)) in
     let maskC := u8 (Z.lnot (Z.shiftr (Z.land bitmask 0xC0) 6)) in
     cli ;;
     pb <- get_PORTB ;;
     set_PORTB (Z.lor (Z.land pb maskB) valB) ;;
     pc <- get_PORTC ;;
     set_PORTC (Z.lor (Z.land pc maskC) valC) ;;
     sei
   else if port =? 2 then
     let bitmask := u8 (Z.land bitmask 0x0F) in
     let valC := u8 (Z.shiftl (Z.land value bitmask) 2) in
     let maskC := u8 (Z.lnot (Z.shiftl bitmask 2)) in
     cli ;;
     pc <- get_PORTC ;;
     set_PORTC (Z.lor (Z.land pc maskC) valC) ;;
     sei
   else ret tt) ;;
  ret None.

(** [writePort] as each build compiles it.  [ARDUINO_PINOUT_OPTIMIZE] is
    defined exactly in the ATmega168/328P branch of the table, so that build
    gets the register path and the Mega the loop. *)
Definition writePort (b : build)
  : Z -> Z -> Z -> io (hardware (cpu b)) returned :=
  match cpu b as m return Z -> Z -> Z -> io (hardware m) returned with
  | ATmega328P => writePort_fast
  | ATmega2560 => writePort_loop b
  end.

(** Running a call and looking at what it leaves. *)
Definition result {hw A} (c : io hw A) (w : world hw) : A := fst (c w).
Definition after {hw A} (c : io hw A) (w : world hw) : world hw := snd (c w).

(** The events a call adds to a trace that held [n] events before it. *)
Definition new_events {hw A} (c : io hw A) (w : world hw) : list event :=
  skipn (length (trace w)) (trace (after c w)).

Definition quiet {hw} (h : hw) : world hw := mkWorld h [].

(** The mask of the digital-capable pins of a port: bit [i] is set when
    protocol pin [port*8+i] is digital-capable. *)
Definition digital_bits (b : build) (port : Z) : Z :=
  fold_right Z.lor 0
    (map (fun i => if IS_PIN_DIGITAL b (port * 8 + i) then Z.shiftl 1 i else 0)
         [0; 1; 2; 3; 4; 5; 6; 7]).

(** The bit of a byte a C condition selects. *)
Definition bit (x i : Z) : bool := Z.testbit x i.

(** [writePort] then [readPort]: the byte read back. *)
Definition write_then_read (b : build) (port value bitmask : Z)
    (w : world (hardware (cpu b))) : returned :=
  result (readPort b port bitmask) (after (writePort b port value bitmask) w).

Definition all_low_avr : avr := mkAvr 0 0 0.

(** Line [k] of [readPort] reaches [digitalRead]: the pin is
    digital-capable and its mask bit is set. *)
Definition selected (b : build) (pin bitmask k : Z) : bool :=
  IS_PIN_DIGITAL b (pin + k) && bit bitmask k.

(** [out] after line [k] of [readPort], on hardware [h]. *)
Definition line_out {hw} `{Platform hw} (b : build) (h : hw)
    (pin bitmask k out : Z) : Z :=
  if selected b pin bitmask k && truthy (digitalRead (pin + k) h)
  then u8 (Z.lor out (Z.shiftl 1 k))
  else out.

Definition bit_indices : list Z := [0; 1; 2; 3; 4; 5; 6; 7].

(** The single-pin reads of one [readPort] call, in program order. *)
Definition port_reads (b : build) (pin bitmask : Z) : list event :=
  flat_map (fun k => if selected b pin bitmask k then [EvRead (pin + k)] else [])
           bit_indices.

(** What a port write asks of native pin [q]: [Some v] when [q] is pin
    [pin+i] of the port with mask bit [i] set and is digital-capable ([v] is
    bit [i] of the value), [None] when the pin is to be left alone. *)
Definition written (b : build) (pin value bitmask q : Z) : option bool :=
  let i := q - pin in
  if (0 <=? i) && (i <? 8) && bit bitmask i && IS_PIN_DIGITAL b q
  then Some (bit value i)
  else None.

(** The level [digitalWrite] leaves on a pin. *)
Definition level_of (v : bool) : Z := if v then HIGH else LOW.

(** The [digitalWrite] calls of one pass of the bit-by-bit [writePort], in
    program order. *)
Definition port_writes (b : build) (pin value bitmask : Z) : list event :=
  flat_map (fun k => if selected b pin bitmask k
                     then [EvWrite (pin + k) (Z.land value (Z.shiftl 1 k))]
                     else [])
           bit_indices.

(** The pins the table comment gives to the BTLE link ("we dont use digital
    2 or 9, 10, 11, 12, 13"). *)
Definition btle_link_pin (q : Z) : bool :=
  (q =? 2) || ((9 <=? q) && (q <=? 13)).

(* ================================================================== *)
(** * Properties of the board tables *)

Ltac table b :=
  destruct b as [[|] ?n ?ms];
  unfold IS_PIN_SERVO, IS_PIN_DIGITAL, IS_PIN_ANALOG, PIN_TO_ANALOG,
    PIN_TO_SERVO, PIN_TO_DIGITAL, TOTAL_PINS, TOTAL_ANALOG_PINS in *;
  cbn [cpu MAX_SERVOS NUM_ANALOG_INPUTS] in *.

Lemma analog_range_328 b p :
  cpu b = ATmega328P ->
  IS_PIN_ANALOG b p = true <-> 14 <= p < 14 + TOTAL_ANALOG_PINS b.
Proof.
  intros Hc. unfold IS_PIN_ANALOG. rewrite Hc. lia.
Qed.

Lemma analog_range_mega b p :
  cpu b = ATmega2560 -> IS_PIN_ANALOG b p = true <-> 54 <= p < 70.
Proof.
  intros Hc. unfold IS_PIN_ANALOG, TOTAL_PINS. rewrite Hc. lia.
Qed.

(** Every build has at most nine ports, so the base pin [port*8] of a valid
    port fits the 8-bit variable that holds it. *)
Lemma total_ports_small b : 0 < TOTAL_PORTS b <= 9.
Proof.
  unfold TOTAL_PORTS, TOTAL_PINS.
  destruct (cpu b); [destruct (six_analog_inputs b) |]; cbn; lia.
Qed.

(** Where the table is consistent (the Mega, and the ATmega168/328P with
    eight analog inputs) the analog pins are the top [TOTAL_ANALOG_PINS]
    indices of the protocol range. *)
Lemma analog_pins_top_of_range b :
  cpu b = ATmega2560 \/ six_analog_inputs b = false ->
  analog_pins b =
    map Z.of_nat (seq (Z.to_nat (TOTAL_PINS b - TOTAL_ANALOG_PINS b))
                      (Z.to_nat (TOTAL_ANALOG_PINS b)))
  /\ Z.of_nat (length (analog_pins b)) = TOTAL_ANALOG_PINS b.
Proof.
  intros Hb.
  unfold analog_pins, protocol_pins, IS_PIN_ANALOG, TOTAL_PINS,
    TOTAL_ANALOG_PINS.
  destruct (cpu b).
  - destruct Hb as [Hb | Hb]; [discriminate|].
    rewrite Hb. split; reflexivity.
  - split; reflexivity.
Qed.

(** C4. The claim: on every board profile the analog-capable indices below
    [TOTAL_PINS] number exactly [TOTAL_ANALOG_PINS].  On the ATmega168/328P
    profile with six analog inputs the table sets [TOTAL_PINS] to 16 although
    its own comment counts 14 digital + 6 analog pins: only indices 14 and 15
    are analog-capable protocol pins there, two instead of six. *)
Theorem analog_pins_uno_two_of_six :
  TOTAL_PINS uno = 16 /\ TOTAL_ANALOG_PINS uno = 6 /\
  analog_pins uno = [14; 15] /\
  Z.of_nat (length (analog_pins uno)) <> TOTAL_ANALOG_PINS uno /\
  IS_PIN_ANALOG uno 19 = true.
Proof.
  repeat split; try reflexivity. vm_compute. discriminate.
Qed.

(** C5. Servo capability implies digital capability, on every board profile
    and for every value of [MAX_SERVOS], for pin indices below
    [TOTAL_PINS]. *)
Theorem servo_implies_digital b p :
  0 <= p < TOTAL_PINS b ->
  IS_PIN_SERVO b p = true ->
  IS_PIN_DIGITAL b p = true.
Proof.
  table b; lia.
Qed.

Lemma servo_implies_digital_witness :
  0 <= 5 < TOTAL_PINS (with_servos mega 12) /\
  IS_PIN_SERVO (with_servos mega 12) 5 = true /\
  IS_PIN_DIGITAL (with_servos mega 12) 5 = true.
Proof.
  split; [vm_compute; split; [discriminate | reflexivity] |].
  split; [reflexivity |].
  apply (servo_implies_digital (with_servos mega 12) 5);
    [vm_compute; split; [discriminate | reflexivity] | reflexivity].
Defined.

Lemma first_servo_pin_mega b :
  cpu b = ATmega2560 -> first_servo_pin b 2.
Proof.
  intros Hc. split.
  - exists 1. unfold IS_PIN_SERVO, with_servos. cbn [cpu MAX_SERVOS].
    rewrite Hc. reflexivity.
  - intros q [n Hn]. unfold IS_PIN_SERVO, with_servos in Hn.
    cbn [cpu MAX_SERVOS] in Hn. rewrite Hc in Hn. lia.
Qed.

Lemma first_servo_pin_328 b :
  cpu b = ATmega328P -> first_servo_pin b 3.
Proof.
  intros Hc. split.
  - exists 2. unfold IS_PIN_SERVO, IS_PIN_DIGITAL, with_servos.
    cbn [cpu MAX_SERVOS]. rewrite Hc. reflexivity.
  - intros q [n Hn]. unfold IS_PIN_SERVO, IS_PIN_DIGITAL, with_servos in Hn.
    cbn [cpu MAX_SERVOS] in Hn. rewrite Hc in Hn. lia.
Qed.

(** C6, as amended.  On a servo-capable pin [PIN_TO_SERVO] is the pin index
    minus 2, a slot in [0, MAX_SERVOS).  On the Mega 2 is the smallest
    servo-capable index, so the first servo pin gets slot 0; on the
    ATmega168/328P the smallest servo-capable index is 3 and its slot is 1. *)
Theorem servo_slot_is_pin_minus_two b p :
  IS_PIN_SERVO b p = true ->
  PIN_TO_SERVO b p = p - 2 /\
  0 <= PIN_TO_SERVO b p < MAX_SERVOS b /\
  match cpu b with
  | ATmega2560 => first_servo_pin b 2 /\ PIN_TO_SERVO b 2 = 0
  | ATmega328P => first_servo_pin b 3 /\ PIN_TO_SERVO b 3 = 1
  end.
Proof.
  intros Hs. split; [reflexivity|]. split.
  - table b; lia.
  - destruct (cpu b) eqn:Hc; split; try reflexivity.
    + now apply first_servo_pin_328.
    + now apply first_servo_pin_mega.
Qed.

Lemma servo_slot_is_pin_minus_two_witness :
  IS_PIN_SERVO (with_servos uno 12) 3 = true /\
  PIN_TO_SERVO (with_servos uno 12) 3 = 3 - 2 /\
  0 <= PIN_TO_SERVO (with_servos uno 12) 3 < MAX_SERVOS (with_servos uno 12) /\
  first_servo_pin (with_servos uno 12) 3 /\
  PIN_TO_SERVO (with_servos uno 12) 3 = 1.
Proof.
  split; [reflexivity |].
  exact (servo_slot_is_pin_minus_two (with_servos uno 12) 3 eq_refl).
Defined.

(** C6, the claim as stated fails: on the ATmega168/328P with twelve servos
    pin 3 is servo-capable and no smaller pin is, yet its slot is 1, not
    3 - 3. *)
Lemma servo_slot_not_from_first_uno :
  IS_PIN_SERVO (with_servos uno 12) 3 = true /\
  first_servo_pin (with_servos uno 12) 3 /\
  PIN_TO_SERVO (with_servos uno 12) 3 = 1 /\
  ~ servo_slot_from_first (with_servos uno 12) 3.
Proof.
  assert (F : first_servo_pin (with_servos uno 12) 3)
    by (apply first_servo_pin_328; reflexivity).
  repeat split; try reflexivity; try apply F.
  intros Hc. specialize (Hc 3 F). vm_compute in Hc. discriminate.
Qed.

Lemma least_analog_pin b :
  least_pin (IS_PIN_ANALOG b)
            (match cpu b with ATmega328P => 14 | ATmega2560 => 54 end).
Proof.
  unfold least_pin.
  table b; [destruct (six_analog_inputs _) |]; (split; [| intros q Hq]); lia.
Qed.

(** C7. On an analog-capable pin [PIN_TO_ANALOG] is the pin index minus the
    first analog-capable index of the board, a channel number in
    [0, TOTAL_ANALOG_PINS); and [PIN_TO_DIGITAL] is the identity on every
    digital-capable pin. *)
Theorem analog_channel_zero_based b p :
  IS_PIN_ANALOG b p = true ->
  (exists f, least_pin (IS_PIN_ANALOG b) f /\
             PIN_TO_ANALOG b p = p - f /\
             PIN_TO_ANALOG b f = 0 /\
             0 <= PIN_TO_ANALOG b p < TOTAL_ANALOG_PINS b) /\
  (forall q, IS_PIN_DIGITAL b q = true -> PIN_TO_DIGITAL b q = q).
Proof.
  intros Ha. split; [| reflexivity].
  exists (match cpu b with ATmega328P => 14 | ATmega2560 => 54 end).
  split; [apply least_analog_pin|].
  table b; repeat split; try lia.
  all: destruct (six_analog_inputs _); lia.
Qed.

Lemma analog_channel_zero_based_witness :
  IS_PIN_ANALOG uno 15 = true /\
  (exists f, least_pin (IS_PIN_ANALOG uno) f /\
             PIN_TO_ANALOG uno 15 = 15 - f /\
             PIN_TO_ANALOG uno f = 0 /\
             0 <= PIN_TO_ANALOG uno 15 < TOTAL_ANALOG_PINS uno) /\
  (forall q, IS_PIN_DIGITAL uno q = true -> PIN_TO_DIGITAL uno q = q).
Proof.
  split; [reflexivity |].
  exact (analog_channel_zero_based uno 15 eq_refl).
Defined.

(* ================================================================== *)
(** * Bytes and bits *)

Lemma u8_range x : is_byte (u8 x).
Proof.
  unfold is_byte, u8. apply Z.mod_pos_bound. lia.
Qed.

Lemma u8_small x : is_byte x -> u8 x = x.
Proof.
  unfold is_byte, u8. intros. now apply Z.mod_small.
Qed.

Lemma u8_bit x i : 0 <= i -> bit (u8 x) i = (i <? 8) && bit x i.
Proof.
  intros Hi. unfold bit, u8. change 256 with (2 ^ 8).
  apply Z.testbit_mod_pow2. lia.
Qed.

Lemma byte_high_bit x i : is_byte x -> 8 <= i -> bit x i = false.
Proof.
  intros Hx Hi. rewrite <- (u8_small x Hx), u8_bit by lia.
  replace (i <? 8) with false by lia. reflexivity.
Qed.

(** Two bytes with the same eight bits are equal. *)
Lemma byte_ext x y :
  is_byte x -> is_byte y ->
  (forall i, 0 <= i < 8 -> bit x i = bit y i) -> x = y.
Proof.
  intros Hx Hy Hb. apply Z.bits_inj'. intros i Hi.
  destruct (Z.lt_ge_cases i 8) as [Hlt | Hge].
  - apply Hb. lia.
  - fold (bit x i) (bit y i). now rewrite !byte_high_bit.
Qed.

Lemma bit_shiftl_1 k i : 0 <= k -> 0 <= i -> bit (Z.shiftl 1 k) i = (i =? k).
Proof.
  intros Hk Hi. unfold bit. rewrite Z.shiftl_1_l, Z.pow2_bits_eqb by lia.
  lia.
Qed.

(** [x & (1 << k)] is non-zero exactly when bit [k] of [x] is set. *)
Lemma truthy_land_bit x k : 0 <= k -> truthy (Z.land x (Z.shiftl 1 k)) = bit x k.
Proof.
  intros Hk. unfold truthy.
  destruct (bit x k) eqn:Hb.
  - destruct (Z.eqb_spec (Z.land x (Z.shiftl 1 k)) 0) as [E | E]; [| reflexivity].
    assert (F : bit (Z.land x (Z.shiftl 1 k)) k = true).
    { unfold bit. rewrite Z.land_spec. fold (bit x k) (bit (Z.shiftl 1 k) k).
      rewrite Hb, bit_shiftl_1 by lia. lia. }
    rewrite E in F. unfold bit in F. rewrite Z.bits_0 in F. discriminate.
  - replace (Z.land x (Z.shiftl 1 k)) with 0; [reflexivity |].
    symmetry. apply Z.bits_inj'. intros i Hi.
    rewrite Z.land_spec, Z.bits_0.
    fold (bit x i) (bit (Z.shiftl 1 k) i). rewrite bit_shiftl_1 by lia.
    destruct (Z.eqb_spec i k) as [-> | _]; [now rewrite Hb | apply andb_false_r].
Qed.

Lemma land_bit_value x k :
  0 <= k -> Z.land x (Z.shiftl 1 k) = if bit x k then Z.shiftl 1 k else 0.
Proof.
  intros Hk. apply Z.bits_inj'. intros i Hi.
  rewrite Z.land_spec. fold (bit x i) (bit (Z.shiftl 1 k) i).
  rewrite bit_shiftl_1 by lia.
  destruct (Z.eqb_spec i k) as [-> | Hne].
  - destruct (bit x k); [| now rewrite Z.bits_0].
    fold (bit (Z.shiftl 1 k) k). rewrite bit_shiftl_1 by lia. lia.
  - rewrite andb_false_r. destruct (bit x k); [| now rewrite Z.bits_0].
    fold (bit (Z.shiftl 1 k) i). rewrite bit_shiftl_1 by lia. lia.
Qed.

(** The base pin of a port as [readPort] and [writePort] compute it, in an
    8-bit variable: [port*8] wraps at port 32. *)
Lemma base_pin_wraps port : u8 (port * 8) = 8 * (port mod 32).
Proof.
  unfold u8. change 256 with (32 * 8).
  rewrite Z.mul_mod_distr_r by lia. lia.
Qed.

Lemma base_pin_range port : 0 <= u8 (port * 8) <= 248.
Proof.
  rewrite base_pin_wraps.
  pose proof (Z.mod_pos_bound port 32). lia.
Qed.

Lemma base_pin_small port : 0 <= port < 32 -> u8 (port * 8) = port * 8.
Proof.
  intros Hp. rewrite base_pin_wraps, Z.mod_small by lia. lia.
Qed.

Lemma base_pin_plus port i : 0 <= i < 8 -> u8 (u8 (port * 8) + i) = u8 (port * 8) + i.
Proof.
  intros Hi. apply u8_small. pose proof (base_pin_range port).
  unfold is_byte. lia.
Qed.

(* ================================================================== *)
(** * The monad *)

Lemma bind_run {hw A B} (c : io hw A) (k : A -> io hw B) w a w' :
  c w = (a, w') -> bind c k w = k a w'.
Proof.
  intros E. unfold bind. now rewrite E.
Qed.

Lemma result_bind_ret {hw A B} (c : io hw A) (v : B) w :
  result (c ;; ret v) w = v.
Proof.
  unfold result, bind, ret. now destruct (c w).
Qed.

Lemma after_bind_ret {hw A B} (c : io hw A) (v : B) w :
  after (c ;; ret v) w = after c w.
Proof.
  unfold after, bind, ret. now destruct (c w).
Qed.

Lemma world_eta {hw} (w : world hw) : mkWorld (dev w) (trace w) = w.
Proof.
  now destruct w.
Qed.

Lemma skipn_app_exact {A} (l l' : list A) : skipn (length l) (l ++ l') = l'.
Proof.
  induction l; simpl; auto.
Qed.

(* ================================================================== *)
(** * readPort *)

Section ReadPort.
Context {hw : Type} `{Platform hw}.
Variable b : build.

(** One line of [readPort], run. *)
Lemma read_line_run pin bitmask k m out (w : world hw) :
  0 <= k < 8 -> 0 <= pin <= 248 -> m = Z.shiftl 1 k ->
  read_line b pin bitmask k m out w =
    (line_out b (dev w) pin bitmask k out,
     mkWorld (dev w)
             (trace w ++ if selected b pin bitmask k then [EvRead (pin + k)] else [])).
Proof.
  intros Hk Hpin ->.
  unfold read_line, line_out, selected, and_then, call_digitalRead, bind, ret,
    PIN_TO_DIGITAL.
  rewrite truthy_land_bit by lia.
  assert (E : u8 (pin + k) = pin + k) by (apply u8_small; unfold is_byte; lia).
  rewrite E.
  destruct (IS_PIN_DIGITAL b (pin + k)); cbn [andb].
  - destruct (bit bitmask k); cbn [andb].
    + reflexivity.
    + now rewrite app_nil_r, world_eta.
  - now rewrite app_nil_r, world_eta.
Qed.

(** The whole call: the byte it returns and the reads it makes. *)
Lemma readPort_run port bitmask (w : world hw) :
  readPort b port bitmask w =
    (Some (fold_left (fun out k => line_out b (dev w) (u8 (port * 8)) bitmask k out)
                     bit_indices 0),
     mkWorld (dev w) (trace w ++ port_reads b (u8 (port * 8)) bitmask)).
Proof.
  pose proof (base_pin_range port) as Hpin.
  unfold readPort, port_reads, bit_indices.
  cbn [fold_left flat_map].
  repeat (erewrite bind_run;
          [| apply read_line_run; [lia | exact Hpin | reflexivity]];
          cbn [dev trace]).
  unfold ret. rewrite <- !app_assoc, app_nil_r. reflexivity.
Qed.

Lemma line_out_byte h pin bitmask k out :
  is_byte out -> is_byte (line_out b h pin bitmask k out).
Proof.
  intros Ho. unfold line_out.
  destruct (_ && _); [apply u8_range | exact Ho].
Qed.

Lemma line_out_bit h pin bitmask k out i :
  0 <= k -> 0 <= i < 8 ->
  bit (line_out b h pin bitmask k out) i =
    ((i =? k) && selected b pin bitmask k && truthy (digitalRead (pin + k) h))
    || bit out i.
Proof.
  intros Hk Hi. unfold line_out.
  destruct (selected b pin bitmask k && truthy (digitalRead (pin + k) h)) eqn:E.
  - rewrite u8_bit by lia. unfold bit at 1. rewrite Z.lor_spec.
    fold (bit out i) (bit (Z.shiftl 1 k) i). rewrite bit_shiftl_1 by lia.
    rewrite <- andb_assoc, E. replace (i <? 8) with true by lia.
    cbn [andb]. rewrite andb_true_r. apply orb_comm.
  - rewrite <- andb_assoc, E, andb_false_r. reflexivity.
Qed.

(** Bit [i] of the byte [readPort] returns. *)
Lemma readPort_bit port bitmask (w : world hw) :
  exists out,
    result (readPort b port bitmask) w = Some out /\
    is_byte out /\
    forall i, 0 <= i < 8 ->
      bit out i =
        selected b (u8 (port * 8)) bitmask i
        && truthy (digitalRead (u8 (port * 8) + i) (dev w)).
Proof.
  unfold result. rewrite readPort_run. cbn [fst].
  eexists. split; [reflexivity |]. split.
  - unfold bit_indices. cbn [fold_left].
    repeat apply line_out_byte. unfold is_byte. lia.
  - intros i Hi. unfold bit_indices. cbn [fold_left].
    rewrite !line_out_bit by lia.
    change (bit 0 i) with (Z.testbit 0 i). rewrite Z.bits_0.
    assert (Hc : i = 0 \/ i = 1 \/ i = 2 \/ i = 3 \/ i = 4 \/ i = 5 \/ i = 6 \/ i = 7)
      by lia.
    destruct Hc as [-> | [-> | [-> | [-> | [-> | [-> | [-> | ->]]]]]]];
      cbn [Z.eqb Pos.eqb andb orb];
      rewrite ?orb_false_r; reflexivity.
Qed.

Lemma readPort_dev port bitmask (w : world hw) :
  dev (after (readPort b port bitmask) w) = dev w.
Proof.
  unfold after. now rewrite readPort_run.
Qed.

Lemma readPort_events port bitmask (w : world hw) :
  new_events (readPort b port bitmask) w = port_reads b (u8 (port * 8)) bitmask.
Proof.
  unfold new_events, after. rewrite readPort_run. cbn [snd trace].
  apply skipn_app_exact.
Qed.

Lemma port_reads_in pin bitmask e :
  In e (port_reads b pin bitmask) ->
  exists i, 0 <= i < 8 /\ e = EvRead (pin + i) /\
            IS_PIN_DIGITAL b (pin + i) = true /\ bit bitmask i = true.
Proof.
  unfold port_reads. rewrite in_flat_map. intros [k [Hk He]].
  exists k. unfold selected in He.
  destruct (IS_PIN_DIGITAL b (pin + k)) eqn:Hd;
    destruct (bit bitmask k) eqn:Hm; cbn [andb] in He;
    try contradiction.
  destruct He as [<- | []].
  unfold bit_indices in Hk. cbn [In] in Hk. repeat split; auto; lia.
Qed.

End ReadPort.

(** C3. For every port of the board and every bitmask, [readPort] returns
    a byte (it always returns, and signals nothing) whose bit [i], for [i] in
    0..7, is 1 exactly when bit [i] of the bitmask is set, pin [port*8+i] is
    digital-capable and the digital read of that pin's native index is high;
    in every other case the bit is 0. *)
Theorem readPort_bits {hw : Type} `{Platform hw} b port bitmask (w : world hw) :
  0 <= port < TOTAL_PORTS b ->
  exists out,
    result (readPort b port bitmask) w = Some out /\
    is_byte out /\
    forall i, 0 <= i < 8 ->
      bit out i = bit bitmask i
                  && IS_PIN_DIGITAL b (port * 8 + i)
                  && truthy (digitalRead (PIN_TO_DIGITAL b (port * 8 + i)) (dev w)).
Proof.
  intros Hp.
  assert (Hp32 : 0 <= port < 32) by (pose proof (total_ports_small b); lia).
  destruct (readPort_bit b port bitmask w) as [out [Hr [Ho Hb]]].
  exists out. split; [exact Hr |]. split; [exact Ho |].
  intros i Hi. rewrite (Hb i Hi), (base_pin_small port Hp32).
  unfold selected, PIN_TO_DIGITAL.
  now rewrite (andb_comm (bit bitmask i)).
Qed.

Lemma readPort_bits_witness :
  0 <= 1 < TOTAL_PORTS uno /\
  exists out,
    result (readPort uno 1 0xFF) (quiet (mkAvr 0x01 0x01 0)) = Some out /\
    is_byte out /\
    forall i, 0 <= i < 8 ->
      bit out i = bit 0xFF i
                  && IS_PIN_DIGITAL uno (1 * 8 + i)
                  && truthy (digitalRead (PIN_TO_DIGITAL uno (1 * 8 + i))
                                         (dev (quiet (mkAvr 0x01 0x01 0)))).
Proof.
  assert (Hp : 0 <= 1 < TOTAL_PORTS uno)
    by (vm_compute; split; [discriminate | reflexivity]).
  split; [exact Hp |].
  exact (readPort_bits uno 1 0xFF (quiet (mkAvr 0x01 0x01 0)) Hp).
Defined.

(** C10. Every single-pin read [readPort] makes is a read of a
    digital-capable pin [P+i] whose mask bit [i] is set ([P] the base pin of
    the port); in particular it reads protocol pin [port*8+i] only when that
    pin is digital-capable and bit [i] of the bitmask is set.  Masked-out and
    non-digital pins are not read, and the call leaves the hardware as it
    found it. *)
Theorem readPort_reads_only_selected {hw : Type} `{Platform hw}
    b port bitmask (w : world hw) :
  is_byte port ->
  (forall e, In e (new_events (readPort b port bitmask) w) ->
     exists i, 0 <= i < 8 /\ e = EvRead (u8 (port * 8) + i) /\
               IS_PIN_DIGITAL b (u8 (port * 8) + i) = true /\
               bit bitmask i = true) /\
  (forall i, 0 <= i < 8 ->
     In (EvRead (port * 8 + i)) (new_events (readPort b port bitmask) w) ->
     IS_PIN_DIGITAL b (port * 8 + i) = true /\ bit bitmask i = true) /\
  dev (after (readPort b port bitmask) w) = dev w.
Proof.
  intros Hport. rewrite readPort_events. split; [| split].
  - intros e He. now apply port_reads_in.
  - intros i Hi Hin.
    destruct (port_reads_in b _ _ _ Hin) as [j [Hj [He [Hd Hm]]]].
    injection He as He.
    pose proof (base_pin_wraps port) as Hw.
    pose proof (Z.mod_pos_bound port 32 ltac:(lia)) as Hr.
    assert (i = j /\ port * 8 = u8 (port * 8)) as [-> Hq] by lia.
    rewrite Hq. now split.
  - apply readPort_dev.
Qed.

Lemma readPort_reads_only_selected_witness :
  is_byte 1 /\
  (forall e, In e (new_events (readPort uno 1 0xFF) (quiet all_low_avr)) ->
     exists i, 0 <= i < 8 /\ e = EvRead (u8 (1 * 8) + i) /\
               IS_PIN_DIGITAL uno (u8 (1 * 8) + i) = true /\
               bit 0xFF i = true) /\
  (forall i, 0 <= i < 8 ->
     In (EvRead (1 * 8 + i)) (new_events (readPort uno 1 0xFF) (quiet all_low_avr)) ->
     IS_PIN_DIGITAL uno (1 * 8 + i) = true /\ bit 0xFF i = true) /\
  dev (after (readPort uno 1 0xFF) (quiet all_low_avr)) = dev (quiet all_low_avr).
Proof.
  assert (Hb : is_byte 1) by (unfold is_byte; lia).
  split; [exact Hb |].
  exact (readPort_reads_only_selected uno 1 0xFF (quiet all_low_avr) Hb).
Defined.

(* ================================================================== *)
(** * Bit-level reasoning on register expressions *)

Lemma testbit_u8 x i : 0 <= i -> Z.testbit (u8 x) i = (i <? 8) && Z.testbit x i.
Proof.
  apply u8_bit.
Qed.

Lemma byte_high_testbit x i : is_byte x -> 8 <= i -> Z.testbit x i = false.
Proof.
  apply byte_high_bit.
Qed.

Lemma truthy_level_of v : truthy (level_of v) = v.
Proof.
  now destruct v.
Qed.

(** Bits of closed constants. *)
Ltac const_bits :=
  repeat match goal with
  | |- context [Z.testbit (Zpos ?p) (Zpos ?q)] =>
      let v := eval vm_compute in (Z.testbit (Zpos p) (Zpos q)) in
      change (Z.testbit (Zpos p) (Zpos q)) with v
  | |- context [Z.testbit (Zpos ?p) 0] =>
      let v := eval vm_compute in (Z.testbit (Zpos p) 0) in
      change (Z.testbit (Zpos p) 0) with v
  end.

Ltac index_arith :=
  cbn [Z.add Z.sub Z.mul Z.opp Z.pos_sub Pos.add Pos.mul Pos.succ
       Pos.pred_double Pos.add_carry Z.succ_double Z.pred_double Z.double
       Z.leb Z.ltb Z.compare Pos.compare Pos.compare_cont andb].

(** Push [Z.testbit] at a known index through a register expression. *)
Ltac bits :=
  unfold bit;
  repeat ((rewrite testbit_u8 by lia)
          || rewrite Z.lor_spec || rewrite Z.land_spec
          || (rewrite Z.lnot_spec by lia)
          || (rewrite Z.shiftr_spec by lia)
          || (rewrite Z.shiftl_spec by lia));
  index_arith;
  const_bits;
  repeat match goal with
  | |- context [Z.testbit ?x (Zneg ?p)] =>
      rewrite (Z.testbit_neg_r x (Zneg p)) by lia
  end;
  repeat match goal with
  | Hx : is_byte ?x |- context [Z.testbit ?x ?i] =>
      rewrite (byte_high_testbit x i Hx) by lia
  end.

(** Finish by cases on the bits that are left. *)
Ltac bools :=
  repeat match goal with
  | |- context [Z.testbit ?x ?i] =>
      let t := fresh "t" in generalize (Z.testbit x i); intro t
  end;
  repeat match goal with t : bool |- _ => destruct t end;
  try reflexivity; try discriminate.

(** A read-modify-write [R = (R & mask) | val] done twice is the same as
    done once. *)
Lemma rmw_idempotent x m v :
  u8 (Z.lor (Z.land (u8 (Z.lor (Z.land x m) v)) m) v) = u8 (Z.lor (Z.land x m) v).
Proof.
  apply byte_ext; try apply u8_range.
  intros i Hi. bits. replace (i <? 8) with true by lia. bools.
Qed.

Lemma rmw_mask_zero x m v : is_byte x ->
  (forall i, 0 <= i < 8 -> Z.testbit m i = true /\ Z.testbit v i = false) ->
  u8 (Z.lor (Z.land x m) v) = x.
Proof.
  intros Hx Hb. apply byte_ext; [apply u8_range | exact Hx |].
  intros i Hi. destruct (Hb i Hi) as [Hm Hv]. unfold bit.
  rewrite testbit_u8, Z.lor_spec, Z.land_spec, Hm, Hv by lia.
  replace (i <? 8) with true by lia.
  now rewrite andb_true_r, orb_false_r.
Qed.

(* ================================================================== *)
(** * The ATmega168/328P pins *)

Lemma avr_read_D q h :
  0 <= q <= 7 -> avr_digitalRead q h = level_of (Z.testbit (PORTD h) q).
Proof.
  intros Hq. unfold avr_digitalRead, pin_bit.
  replace ((0 <=? q) && (q <=? 7)) with true by lia. reflexivity.
Qed.

Lemma avr_read_B q h :
  8 <= q <= 13 -> avr_digitalRead q h = level_of (Z.testbit (PORTB h) (q - 8)).
Proof.
  intros Hq. unfold avr_digitalRead, pin_bit.
  replace ((0 <=? q) && (q <=? 7)) with false by lia.
  replace ((8 <=? q) && (q <=? 13)) with true by lia. reflexivity.
Qed.

Lemma avr_read_C q h :
  14 <= q <= 19 -> avr_digitalRead q h = level_of (Z.testbit (PORTC h) (q - 14)).
Proof.
  intros Hq. unfold avr_digitalRead, pin_bit.
  replace ((0 <=? q) && (q <=? 7)) with false by lia.
  replace ((8 <=? q) && (q <=? 13)) with false by lia.
  replace ((14 <=? q) && (q <=? 19)) with true by lia. reflexivity.
Qed.

Lemma avr_read_none q h :
  q < 0 \/ 19 < q -> avr_digitalRead q h = LOW.
Proof.
  intros Hq. unfold avr_digitalRead, pin_bit.
  replace ((0 <=? q) && (q <=? 7)) with false by lia.
  replace ((8 <=? q) && (q <=? 13)) with false by lia.
  replace ((14 <=? q) && (q <=? 19)) with false by lia. reflexivity.
Qed.

Ltac avr_reads :=
  repeat ((rewrite avr_read_D by lia) || (rewrite avr_read_B by lia)
          || (rewrite avr_read_C by lia));
  cbn [PORTB PORTC PORTD].

Lemma pin_bit_range p r k : pin_bit p = Some (r, k) -> 0 <= k <= 7 /\ 0 <= p <= 19.
Proof.
  unfold pin_bit.
  destruct ((0 <=? p) && (p <=? 7)) eqn:E1;
    [| destruct ((8 <=? p) && (p <=? 13)) eqn:E2;
       [| destruct ((14 <=? p) && (p <=? 19)) eqn:E3]];
    intros E; inversion E; subst; lia.
Qed.

Lemma pin_bit_inj p q r k :
  pin_bit p = Some (r, k) -> pin_bit q = Some (r, k) -> p = q.
Proof.
  unfold pin_bit.
  destruct ((0 <=? p) && (p <=? 7)) eqn:P1;
    [| destruct ((8 <=? p) && (p <=? 13)) eqn:P2;
       [| destruct ((14 <=? p) && (p <=? 19)) eqn:P3]];
  (destruct ((0 <=? q) && (q <=? 7)) eqn:Q1;
    [| destruct ((8 <=? q) && (q <=? 13)) eqn:Q2;
       [| destruct ((14 <=? q) && (q <=? 19)) eqn:Q3]]);
  intros E F; inversion E; inversion F; subst; try discriminate; lia.
Qed.

Lemma get_set_reg r r' x h :
  get_reg r' (set_reg r x h) = if match r, r' with
                                  | RB, RB | RC, RC | RD, RD => true
                                  | _, _ => false
                                  end
                               then u8 x else get_reg r' h.
Proof.
  destruct r, r'; reflexivity.
Qed.

(** [digitalWrite] then [digitalRead] on this chip: the written pin reads
    back the level written, every other pin keeps its level. *)
Lemma avr_write_read p q v h :
  avr_digitalRead q (avr_digitalWrite p v h) =
    if (q =? p) && (0 <=? p) && (p <=? 19)
    then level_of (truthy v)
    else avr_digitalRead q h.
Proof.
  unfold avr_digitalWrite.
  destruct (pin_bit p) as [[r k] |] eqn:Ep.
  - destruct (pin_bit_range _ _ _ Ep) as [Hk Hp].
    unfold avr_digitalRead.
    destruct (pin_bit q) as [[r' k'] |] eqn:Eq.
    + destruct (pin_bit_range _ _ _ Eq) as [Hk' Hq].
      assert (Hsame : q = p <-> (r' = r /\ k' = k)).
      { split.
        - intros ->. rewrite Ep in Eq. now inversion Eq.
        - intros [-> ->]. now apply (pin_bit_inj q p r k). }
      unfold truthy, LOW.
      destruct (v =? 0); rewrite get_set_reg; cbn [negb level_of];
        destruct r, r'; cbn [get_reg];
        try (replace ((q =? p) && (0 <=? p) && (p <=? 19)) with false
               by (symmetry; apply not_true_is_false; intros Hc;
                   assert (Hqp : q = p) by lia;
                   apply Hsame in Hqp; destruct Hqp; discriminate);
             reflexivity).
      all: rewrite testbit_u8 by lia;
        replace (k' <? 8) with true by lia; cbn [andb];
        rewrite ?Z.land_spec, ?Z.lor_spec, ?testbit_u8, ?Z.lnot_spec by lia;
        fold (bit (Z.shiftl 1 k) k'); rewrite bit_shiftl_1 by lia;
        replace (k' <? 8) with true by lia; cbn [andb].
      all: destruct (Z.eqb_spec k' k) as [-> | Hne].
      all: try (replace ((q =? p) && (0 <=? p) && (p <=? 19)) with true
                  by (symmetry; assert (Hqp : q = p) by (apply Hsame; now split);
                      lia);
                cbn [negb]; rewrite ?andb_false_r, ?orb_true_r; reflexivity).
      all: replace ((q =? p) && (0 <=? p) && (p <=? 19)) with false
             by (symmetry; apply not_true_is_false; intros Hc;
                 assert (Hqp : q = p) by lia;
                 apply Hsame in Hqp; destruct Hqp; contradiction).
      all: cbn [negb]; now rewrite ?andb_true_r, ?orb_false_r.
    + replace ((q =? p) && (0 <=? p) && (p <=? 19)) with false; [reflexivity |].
      symmetry. apply not_true_is_false. intros Hc.
      assert (q = p) by lia. subst q. rewrite Ep in Eq. discriminate.
  - replace ((q =? p) && (0 <=? p) && (p <=? 19)) with false; [reflexivity |].
    symmetry. apply not_true_is_false. intros Hc.
    unfold pin_bit in Ep.
    destruct ((0 <=? p) && (p <=? 7)) eqn:P1; [discriminate |].
    destruct ((8 <=? p) && (p <=? 13)) eqn:P2; [discriminate |].
    destruct ((14 <=? p) && (p <=? 19)) eqn:P3; [discriminate |].
    lia.
Qed.

(* ================================================================== *)
(** * writePort, register path *)

Lemma fast_port0 v bm w :
  dev (after (writePort_fast 0 v bm) w) =
    mkAvr (PORTB (dev w)) (PORTC (dev w))
          (u8 (Z.lor (Z.land (PORTD (dev w)) (u8 (Z.lnot (u8 (Z.land bm 0xFC)))))
                     (u8 (Z.land v (u8 (Z.land bm 0xFC)))))).
Proof.
  reflexivity.
Qed.

Lemma fast_port1 v bm w :
  dev (after (writePort_fast 1 v bm) w) =
    mkAvr (u8 (Z.lor (Z.land (PORTB (dev w)) (u8 (Z.lnot (Z.land bm 0x3F))))
                     (u8 (Z.land (Z.land v bm) 0x3F))))
          (u8 (Z.lor (Z.land (PORTC (dev w))
                             (u8 (Z.lnot (Z.shiftr (Z.land bm 0xC0) 6))))
                     (u8 (Z.shiftr (Z.land v bm) 6))))
          (PORTD (dev w)).
Proof.
  reflexivity.
Qed.

Lemma fast_port2 v bm w :
  dev (after (writePort_fast 2 v bm) w) =
    mkAvr (PORTB (dev w))
          (u8 (Z.lor (Z.land (PORTC (dev w))
                             (u8 (Z.lnot (Z.shiftl (u8 (Z.land bm 0x0F)) 2))))
                     (u8 (Z.shiftl (Z.land v (u8 (Z.land bm 0x0F))) 2))))
          (PORTD (dev w)).
Proof.
  reflexivity.
Qed.

Lemma fast_other port v bm w :
  port <> 0 -> port <> 1 -> port <> 2 ->
  after (writePort_fast port v bm) w = w.
Proof.
  intros H0 H1 H2. unfold writePort_fast, after, bind, ret.
  destruct (Z.eqb_spec port 0); [contradiction |].
  destruct (Z.eqb_spec port 1); [contradiction |].
  destruct (Z.eqb_spec port 2); [contradiction |]. reflexivity.
Qed.

Ltac pin_cases q :=
  let H := fresh "Hq" in
  assert (H : q = 0 \/ q = 1 \/ q = 2 \/ q = 3 \/ q = 4 \/ q = 5 \/ q = 6 \/
              q = 7 \/ q = 8 \/ q = 9 \/ q = 10 \/ q = 11 \/ q = 12 \/ q = 13 \/
              q = 14 \/ q = 15 \/ q = 16 \/ q = 17 \/ q = 18 \/ q = 19) by lia;
  destruct H as [-> | [-> | [-> | [-> | [-> | [-> | [-> | [-> | [-> | [-> |
                [-> | [-> | [-> | [-> | [-> | [-> | [-> | [-> | [-> | ->
                ]]]]]]]]]]]]]]]]]]].

(** On the digital-capable pins the register path does what the port write
    asks: a masked digital pin of the port takes its value bit, every other
    digital pin keeps its level. *)
Lemma fast_digital_pins b port v bm w q :
  cpu b = ATmega328P -> is_byte v -> is_byte bm ->
  0 <= port < 32 -> IS_PIN_DIGITAL b q = true ->
  avr_digitalRead q (dev (after (writePort_fast port v bm) w)) =
    match written b (port * 8) v bm q with
    | Some x => level_of x
    | None => avr_digitalRead q (dev w)
    end.
Proof.
  intros Hc Hv Hm Hp Hd. unfold written. rewrite Hd, andb_true_r.
  unfold IS_PIN_DIGITAL in Hd. rewrite Hc in Hd.
  assert (Hport : port = 0 \/ port = 1 \/ port = 2 \/ 3 <= port) by lia.
  assert (Hr : 0 <= q <= 19) by lia.
  destruct Hport as [-> | [-> | [-> | Hport]]].
  4: { rewrite fast_other by lia.
       replace (0 <=? q - port * 8) with false by lia. reflexivity. }
  all: rewrite ?fast_port0, ?fast_port1, ?fast_port2.
  all: pin_cases q; try (exfalso; lia).
  all: avr_reads; index_arith; try reflexivity.
  all: bits.
  all: bools.
Qed.

(** Whatever the pin, the register path leaves it alone unless it is pin
    [port*8+i] of the port with mask bit [i] set. *)
Lemma fast_masked_pins_only port v bm w q :
  is_byte v -> is_byte bm -> is_byte port ->
  (0 <= q - port * 8 < 8 -> bit bm (q - port * 8) = false) ->
  avr_digitalRead q (dev (after (writePort_fast port v bm) w)) =
    avr_digitalRead q (dev w).
Proof.
  intros Hv Hm Hp Hmask.
  assert (Hport : port = 0 \/ port = 1 \/ port = 2 \/ 3 <= port)
    by (unfold is_byte in Hp; lia).
  destruct Hport as [-> | [-> | [-> | Hport]]].
  4: { now rewrite fast_other by lia. }
  all: destruct (Z.lt_ge_cases q 0) as [Hneg | Hpos];
    [now rewrite !avr_read_none by lia |].
  all: destruct (Z.lt_ge_cases 19 q) as [Hbig | Hsmall];
    [now rewrite !avr_read_none by lia |].
  all: rewrite ?fast_port0, ?fast_port1, ?fast_port2.
  all: pin_cases q.
  all: avr_reads; index_arith; try reflexivity.
  all: unfold bit in Hmask;
    cbn [Z.add Z.sub Z.mul Z.opp Z.pos_sub Pos.add Pos.mul Pos.succ
         Pos.pred_double Pos.add_carry Z.succ_double Z.pred_double Z.double]
      in Hmask;
    try specialize (Hmask ltac:(lia)).
  all: bits.
  all: try rewrite Hmask.
  all: bools.
Qed.

(** With an empty mask the register path changes no pin. *)
Lemma fast_mask_zero port v w q :
  is_byte v -> is_byte port ->
  avr_digitalRead q (dev (after (writePort_fast port v 0) w)) =
    avr_digitalRead q (dev w).
Proof.
  intros Hv Hp. apply fast_masked_pins_only; auto.
  - unfold is_byte. lia.
  - intros _. unfold bit. apply Z.bits_0.
Qed.

Lemma fast_idempotent port v bm w :
  dev (after (writePort_fast port v bm) (after (writePort_fast port v bm) w)) =
  dev (after (writePort_fast port v bm) w).
Proof.
  destruct (Z.eq_dec port 0) as [-> | H0];
    [| destruct (Z.eq_dec port 1) as [-> | H1];
       [| destruct (Z.eq_dec port 2) as [-> | H2]]].
  - rewrite (fast_port0 v bm (after _ w)), !fast_port0. cbn [PORTB PORTC PORTD].
    now rewrite rmw_idempotent.
  - rewrite (fast_port1 v bm (after _ w)), !fast_port1. cbn [PORTB PORTC PORTD].
    now rewrite !rmw_idempotent.
  - rewrite (fast_port2 v bm (after _ w)), !fast_port2. cbn [PORTB PORTC PORTD].
    now rewrite rmw_idempotent.
  - now rewrite !fast_other.
Qed.

(* ================================================================== *)
(** * writePort, bit-by-bit path *)

Lemma after_seq {hw A B} (c : io hw A) (k : io hw B) w :
  after (c ;; k) w = after k (after c w).
Proof.
  unfold after, bind. now destruct (c w).
Qed.

Lemma truthy_u8_land v i :
  0 <= i < 8 -> truthy (u8 (Z.land v (Z.shiftl 1 i))) = bit v i.
Proof.
  intros Hi. rewrite land_bit_value by lia.
  assert (Hc : i = 0 \/ i = 1 \/ i = 2 \/ i = 3 \/ i = 4 \/ i = 5 \/ i = 6 \/ i = 7)
    by lia.
  destruct Hc as [-> | [-> | [-> | [-> | [-> | [-> | [-> | ->]]]]]]];
    now destruct (bit v _).
Qed.

Section WriteLoop.
Context {hw : Type} `{Platform hw}.
Variable b : build.

(** What the loop needs of the platform: on a digital-capable pin
    [digitalWrite] sets the level [digitalRead] then reports, and it leaves
    the other pins alone. *)
Hypothesis write_same : forall p v h,
  IS_PIN_DIGITAL b p = true ->
  digitalRead p (digitalWrite p v h) = level_of (truthy v).
Hypothesis write_other : forall p q v h,
  IS_PIN_DIGITAL b p = true -> q <> p ->
  digitalRead q (digitalWrite p v h) = digitalRead q h.

Lemma loop_body_dev pin v bm i (w : world hw) :
  0 <= i < 8 -> 0 <= pin <= 248 ->
  dev (after (loop_body b pin v bm i) w) =
    if selected b pin bm i
    then digitalWrite (pin + i) (u8 (Z.land v (Z.shiftl 1 i))) (dev w)
    else dev w.
Proof.
  intros Hi Hpin.
  unfold loop_body, when, call_digitalWrite, after, ret, selected, PIN_TO_DIGITAL.
  rewrite truthy_land_bit by lia.
  assert (E : u8 (pin + i) = pin + i) by (apply u8_small; unfold is_byte; lia).
  rewrite E.
  destruct (bit bm i), (IS_PIN_DIGITAL b (pin + i)); reflexivity.
Qed.

Lemma loop_body_read pin v bm i (w : world hw) q :
  0 <= i < 8 -> 0 <= pin <= 248 ->
  digitalRead q (dev (after (loop_body b pin v bm i) w)) =
    if selected b pin bm i && (q =? pin + i)
    then level_of (bit v i)
    else digitalRead q (dev w).
Proof.
  intros Hi Hpin. rewrite loop_body_dev by assumption.
  destruct (selected b pin bm i) eqn:Hs; [| reflexivity].
  assert (Hd : IS_PIN_DIGITAL b (pin + i) = true)
    by (unfold selected in Hs; now apply andb_true_iff in Hs).
  cbn [andb]. destruct (Z.eqb_spec q (pin + i)) as [-> | Hne].
  - now rewrite write_same, truthy_u8_land.
  - now rewrite write_other.
Qed.

Lemma for_range_read pin v bm n : forall i0 (w : world hw) q,
  0 <= i0 -> i0 + Z.of_nat n <= 8 -> 0 <= pin <= 248 ->
  digitalRead q (dev (after (for_range n i0 (loop_body b pin v bm)) w)) =
    if (i0 <=? q - pin) && (q - pin <? i0 + Z.of_nat n)
       && bit bm (q - pin) && IS_PIN_DIGITAL b q
    then level_of (bit v (q - pin))
    else digitalRead q (dev w).
Proof.
  induction n as [| n IH]; intros i0 w q Hi Hn Hpin.
  - cbn [for_range]. replace ((i0 <=? q - pin) && (q - pin <? i0 + Z.of_nat 0))
      with false by lia.
    reflexivity.
  - cbn [for_range]. rewrite after_seq.
    assert (E : u8 (i0 + 1) = i0 + 1) by (apply u8_small; unfold is_byte; lia).
    rewrite E, IH by lia. rewrite loop_body_read by lia. unfold selected.
    destruct (Z.eq_dec (q - pin) i0) as [Heq | Hne].
    + replace ((i0 + 1 <=? q - pin) && (q - pin <? i0 + 1 + Z.of_nat n))
        with false by lia.
      replace ((i0 <=? q - pin) && (q - pin <? i0 + Z.of_nat (S n)))
        with true by lia.
      replace (q =? pin + i0) with true by lia.
      replace (pin + i0) with q by lia. rewrite Heq.
      cbn [andb]. rewrite andb_true_r, andb_comm. reflexivity.
    + replace (q =? pin + i0) with false by lia.
      rewrite andb_false_r.
      replace ((i0 + 1 <=? q - pin) && (q - pin <? i0 + 1 + Z.of_nat n))
        with ((i0 <=? q - pin) && (q - pin <? i0 + Z.of_nat (S n))) by lia.
      reflexivity.
Qed.

(** After the loop a masked digital pin of the port carries its value bit
    and every other pin the level it had. *)
Lemma writePort_loop_read port v bm (w : world hw) q :
  digitalRead q (dev (after (writePort_loop b port v bm) w)) =
    match written b (u8 (port * 8)) v bm q with
    | Some x => level_of x
    | None => digitalRead q (dev w)
    end.
Proof.
  unfold writePort_loop. rewrite after_bind_ret.
  rewrite for_range_read by (try apply base_pin_range; cbn; lia).
  unfold written. cbn [Z.of_nat Pos.of_succ_nat Pos.succ Z.add].
  now destruct (_ && _).
Qed.

Lemma writePort_loop_idempotent port v bm (w : world hw) q :
  digitalRead q (dev (after (writePort_loop b port v bm)
                            (after (writePort_loop b port v bm) w))) =
  digitalRead q (dev (after (writePort_loop b port v bm) w)).
Proof.
  rewrite !writePort_loop_read. now destruct (written _ _ _ _ _).
Qed.

End WriteLoop.

Lemma levels_write_same p v h :
  levels_digitalRead p (levels_digitalWrite p v h) = level_of (truthy v).
Proof.
  unfold levels_digitalRead, levels_digitalWrite. now rewrite Z.eqb_refl.
Qed.

Lemma levels_write_other p q v h :
  q <> p -> levels_digitalRead q (levels_digitalWrite p v h) = levels_digitalRead q h.
Proof.
  intros Hne. unfold levels_digitalRead, levels_digitalWrite.
  now replace (q =? p) with false by lia.
Qed.

Lemma avr_write_same b p v h :
  cpu b = ATmega328P -> IS_PIN_DIGITAL b p = true ->
  avr_digitalRead p (avr_digitalWrite p v h) = level_of (truthy v).
Proof.
  intros Hc Hd. unfold IS_PIN_DIGITAL in Hd. rewrite Hc in Hd.
  rewrite avr_write_read.
  now replace ((p =? p) && (0 <=? p) && (p <=? 19)) with true by lia.
Qed.

Lemma avr_write_other p q v h :
  q <> p -> avr_digitalRead q (avr_digitalWrite p v h) = avr_digitalRead q h.
Proof.
  intros Hne. rewrite avr_write_read.
  now replace (q =? p) with false by lia.
Qed.

(** The loop, had it been compiled for the ATmega168/328P. *)
Lemma loop_on_avr_read b port v bm (w : world avr) q :
  cpu b = ATmega328P ->
  avr_digitalRead q (dev (after (writePort_loop b port v bm) w)) =
    match written b (u8 (port * 8)) v bm q with
    | Some x => level_of x
    | None => avr_digitalRead q (dev w)
    end.
Proof.
  intros Hc.
  apply (@writePort_loop_read avr avr_platform b).
  - intros p x h Hd. now apply (avr_write_same b).
  - intros p q' x h _ Hne. now apply avr_write_other.
Qed.

(** On every digital-capable pin the two forms of [writePort] leave the same
    level; they part only on pins that are not digital-capable. *)
Lemma fast_and_loop_agree_on_digital_pins b port v bm (w : world avr) q :
  cpu b = ATmega328P -> is_byte v -> is_byte bm -> 0 <= port < 32 ->
  IS_PIN_DIGITAL b q = true ->
  avr_digitalRead q (dev (after (writePort_fast port v bm) w)) =
  avr_digitalRead q (dev (after (writePort_loop b port v bm) w)).
Proof.
  intros Hc Hv Hm Hp Hd.
  rewrite (fast_digital_pins b), loop_on_avr_read, base_pin_small by assumption.
  reflexivity.
Qed.

(** [writePort] as compiled, on the digital-capable pins. *)
Lemma writePort_digital_pins b port v bm (w : world (hardware (cpu b))) q :
  is_byte v -> is_byte bm -> 0 <= port < 32 ->
  IS_PIN_DIGITAL b q = true ->
  digitalRead q (dev (after (writePort b port v bm) w)) =
    match written b (port * 8) v bm q with
    | Some x => level_of x
    | None => digitalRead q (dev w)
    end.
Proof.
  intros Hv Hm Hp Hd. destruct b as [[|] n ms]; cbn in w |- *.
  - now apply fast_digital_pins.
  - rewrite <- (base_pin_small port Hp).
    apply (@writePort_loop_read pin_levels levels_platform).
    + intros p x h _. apply levels_write_same.
    + intros p q' x h _ Hne. now apply levels_write_other.
Qed.

Lemma writePort_idempotent b port v bm (w : world (hardware (cpu b))) q :
  digitalRead q (dev (after (writePort b port v bm)
                            (after (writePort b port v bm) w))) =
  digitalRead q (dev (after (writePort b port v bm) w)).
Proof.
  destruct b as [[|] n ms]; cbn in w |- *.
  - now rewrite fast_idempotent.
  - apply (@writePort_loop_idempotent pin_levels levels_platform).
    + intros p x h _. apply levels_write_same.
    + intros p q' x h _ Hne. now apply levels_write_other.
Qed.

(** The bit-by-bit form keeps the frame: a pin changes only if it is a
    masked, digital-capable pin of the port.  This is the form the Mega
    build compiles. *)
Lemma writePort_loop_frame b port v bm (w : world pin_levels) q :
  levels_digitalRead q (dev (after (writePort_loop b port v bm) w)) <>
  levels_digitalRead q (dev w) ->
  exists i, 0 <= i < 8 /\ q = u8 (port * 8) + i /\
            bit bm i = true /\ IS_PIN_DIGITAL b q = true.
Proof.
  intros Hch.
  assert (E := @writePort_loop_read pin_levels levels_platform b
                 (fun p x h _ => levels_write_same p x h)
                 (fun p q' x h _ Hne => levels_write_other p q' x h Hne)
                 port v bm w q).
  cbn [digitalRead levels_platform] in E. rewrite E in Hch. clear E.
  unfold written in Hch.
  destruct ((0 <=? q - u8 (port * 8)) && (q - u8 (port * 8) <? 8)
            && bit bm (q - u8 (port * 8)) && IS_PIN_DIGITAL b q) eqn:Hc;
    [| contradiction].
  exists (q - u8 (port * 8)).
  apply andb_true_iff in Hc. destruct Hc as [Hc Hd].
  apply andb_true_iff in Hc. destruct Hc as [Hc Hm].
  repeat split; auto; lia.
Qed.

Lemma writePort_loop_mask_zero b port v (w : world pin_levels) q :
  levels_digitalRead q (dev (after (writePort_loop b port v 0) w)) =
  levels_digitalRead q (dev w).
Proof.
  destruct (Z.eq_dec (levels_digitalRead q (dev (after (writePort_loop b port v 0) w)))
                     (levels_digitalRead q (dev w))) as [E | Hne]; [exact E |].
  destruct (writePort_loop_frame _ _ _ _ _ _ Hne) as [i [_ [_ [Hb _]]]].
  unfold bit in Hb. rewrite Z.bits_0 in Hb. discriminate.
Qed.

(* ================================================================== *)
(** * The port pair *)

Lemma testbit_if_shiftl (c : bool) k i :
  0 <= k -> 0 <= i ->
  Z.testbit (if c then Z.shiftl 1 k else 0) i = c && (i =? k).
Proof.
  intros Hk Hi. destruct c.
  - fold (bit (Z.shiftl 1 k) i). now rewrite bit_shiftl_1.
  - apply Z.bits_0.
Qed.

Lemma digital_bits_bit b port i :
  0 <= i ->
  bit (digital_bits b port) i = (i <? 8) && IS_PIN_DIGITAL b (port * 8 + i).
Proof.
  intros Hi. unfold digital_bits, bit. cbn [map fold_right].
  rewrite !Z.lor_spec, !testbit_if_shiftl, Z.bits_0 by lia.
  destruct (Z.lt_ge_cases i 8) as [Hlt | Hge].
  - assert (Hc : i = 0 \/ i = 1 \/ i = 2 \/ i = 3 \/ i = 4 \/ i = 5 \/ i = 6 \/ i = 7)
      by lia.
    destruct Hc as [-> | [-> | [-> | [-> | [-> | [-> | [-> | ->]]]]]]];
      cbn [Z.eqb Pos.eqb Z.ltb Z.compare Pos.compare Pos.compare_cont andb];
      rewrite ?andb_false_r, ?andb_true_r, ?orb_false_r; reflexivity.
  - replace (i <? 8) with false by lia.
    repeat match goal with
    | |- context [i =? ?k] => replace (i =? k) with false by lia
    end.
    now rewrite ?andb_false_r.
Qed.

(** C1. The claim: [writePort] changes a pin only if its mask bit is set and
    the pin is digital-capable.  The ATmega168/328P build compiles the
    register path, which drives pin 2 from [writePort(0, 0x04, 0x04)] although
    the table excludes pin 2 from [IS_PIN_DIGITAL] (the BTLE link). *)
Theorem writePort_moves_reserved_pin_2 :
  ARDUINO_PINOUT_OPTIMIZE uno = Some 0 /\
  IS_PIN_DIGITAL uno 2 = false /\
  digitalRead 2 all_low_avr = LOW /\
  digitalRead 2 (dev (after (writePort uno 0 0x04 0x04) (quiet all_low_avr))) = HIGH.
Proof.
  repeat split; reflexivity.
Qed.

(** C2. The claim: the register path and the bit-by-bit form touch the same
    pins and leave the same levels, and never write the pins reserved for the
    link.  From [writePort(1, 0x20, 0x20)] the register path sets PORTB bit 5,
    native pin 13 of the BTLE link, while the bit-by-bit form makes no
    [digitalWrite] at all and leaves pin 13 low. *)
Theorem fast_path_writes_pin_13_loop_does_not :
  IS_PIN_DIGITAL uno 13 = false /\
  dev (after (writePort_fast 1 0x20 0x20) (quiet all_low_avr)) = mkAvr 0x20 0 0 /\
  avr_digitalRead 13 (dev (after (writePort_fast 1 0x20 0x20) (quiet all_low_avr)))
    = HIGH /\
  new_events (writePort_loop uno 1 0x20 0x20) (quiet all_low_avr) = [] /\
  avr_digitalRead 13 (dev (after (writePort_loop uno 1 0x20 0x20) (quiet all_low_avr)))
    = LOW.
Proof.
  repeat split; reflexivity.
Qed.

(** C8. For every port of the board, every value and every mask,
    [writePort(port, value, mask)] followed by [readPort(port, mask)] returns
    exactly [value & mask] restricted to the digital-capable pins of the port,
    the result bits of non-digital pins being 0 whatever was written; and
    calling [writePort] twice with identical arguments leaves every native
    pin as calling it once does, for every port number. *)
Theorem write_then_read_back b port value bitmask (w : world (hardware (cpu b))) :
  is_byte value -> is_byte bitmask -> 0 <= port < TOTAL_PORTS b ->
  write_then_read b port value bitmask w =
    Some (Z.land (Z.land value bitmask) (digital_bits b port)) /\
  (forall i, 0 <= i < 8 -> IS_PIN_DIGITAL b (port * 8 + i) = false ->
     bit (Z.land (Z.land value bitmask) (digital_bits b port)) i = false) /\
  (forall port' (w' : world (hardware (cpu b))) q,
     digitalRead q (dev (after (writePort b port' value bitmask)
                               (after (writePort b port' value bitmask) w'))) =
     digitalRead q (dev (after (writePort b port' value bitmask) w'))).
Proof.
  intros Hv Hm Hp0.
  assert (Hp : 0 <= port < 32) by (pose proof (total_ports_small b); lia).
  split; [| split].
  - unfold write_then_read.
    destruct (readPort_bit b port bitmask
                (after (writePort b port value bitmask) w)) as [out [Hr [Ho Hb]]].
    rewrite Hr. f_equal. apply Z.bits_inj'. intros i Hi.
    fold (bit out i) (bit (Z.land (Z.land value bitmask) (digital_bits b port)) i).
    unfold bit at 2. rewrite !Z.land_spec.
    fold (bit value i) (bit bitmask i) (bit (digital_bits b port) i).
    rewrite digital_bits_bit by lia.
    destruct (Z.lt_ge_cases i 8) as [Hlt | Hge].
    + rewrite Hb by lia. rewrite base_pin_small by lia.
      replace (i <? 8) with true by lia. unfold selected. cbn [andb].
      destruct (IS_PIN_DIGITAL b (port * 8 + i)) eqn:Hd;
        [| now destruct (bit value i), (bit bitmask i)].
      destruct (bit bitmask i) eqn:Hbit; [| now destruct (bit value i)].
      rewrite writePort_digital_pins by assumption.
      unfold written. replace (port * 8 + i - port * 8) with i by lia.
      rewrite Hd, Hbit.
      replace ((0 <=? i) && (i <? 8)) with true by lia.
      cbn [andb]. rewrite truthy_level_of. now rewrite !andb_true_r.
    + rewrite (byte_high_bit out) by assumption.
      replace (i <? 8) with false by lia. now rewrite andb_false_r.
  - intros i Hi Hd. unfold bit. rewrite Z.land_spec.
    fold (bit (digital_bits b port) i).
    rewrite digital_bits_bit, Hd by lia. now rewrite !andb_false_r.
  - intros port' w' q. apply writePort_idempotent.
Qed.

Lemma write_then_read_back_witness :
  is_byte 0xFF /\ is_byte 0x0F /\ 0 <= 0 < TOTAL_PORTS uno /\
  write_then_read uno 0 0xFF 0x0F (quiet all_low_avr) =
    Some (Z.land (Z.land 0xFF 0x0F) (digital_bits uno 0)) /\
  (forall i, 0 <= i < 8 -> IS_PIN_DIGITAL uno (0 * 8 + i) = false ->
     bit (Z.land (Z.land 0xFF 0x0F) (digital_bits uno 0)) i = false) /\
  (forall port' (w' : world (hardware (cpu uno))) q,
     digitalRead q (dev (after (writePort uno port' 0xFF 0x0F)
                               (after (writePort uno port' 0xFF 0x0F) w'))) =
     digitalRead q (dev (after (writePort uno port' 0xFF 0x0F) w'))).
Proof.
  assert (Hv : is_byte 0xFF) by (unfold is_byte; lia).
  assert (Hm : is_byte 0x0F) by (unfold is_byte; lia).
  assert (Hp : 0 <= 0 < TOTAL_PORTS uno)
    by (vm_compute; split; [discriminate | reflexivity]).
  split; [exact Hv |]. split; [exact Hm |]. split; [exact Hp |].
  exact (write_then_read_back uno 0 0xFF 0x0F (quiet all_low_avr) Hv Hm Hp).
Defined.

(* ================================================================== *)
(** * Further properties of the board tables *)

(** X1. The two I2C pins of a board are digital-capable.  On the
    ATmega168/328P they are also analog-capable, as analog channels 4 and 5;
    on the Mega they are not analog-capable. *)
Theorem i2c_pins_are_digital b p :
  IS_PIN_I2C b p = true ->
  IS_PIN_DIGITAL b p = true /\
  match cpu b with
  | ATmega328P => IS_PIN_ANALOG b p = true /\
                  (PIN_TO_ANALOG b p = 4 \/ PIN_TO_ANALOG b p = 5)
  | ATmega2560 => IS_PIN_ANALOG b p = false
  end.
Proof.
  unfold IS_PIN_I2C.
  table b; intros Hp; [destruct (six_analog_inputs _) |]; lia.
Qed.

Lemma i2c_pins_are_digital_witness :
  IS_PIN_I2C uno 18 = true /\
  IS_PIN_DIGITAL uno 18 = true /\
  IS_PIN_ANALOG uno 18 = true /\
  (PIN_TO_ANALOG uno 18 = 4 \/ PIN_TO_ANALOG uno 18 = 5).
Proof.
  split; [reflexivity |].
  exact (i2c_pins_are_digital uno 18 eq_refl).
Defined.

(** X2. Every build stays inside the limits the header documents for the
    protocol: at most 128 pins and 16 analog inputs; and [TOTAL_PORTS] is the
    number of 8-pin ports that just covers [TOTAL_PINS], at most 16. *)
Theorem table_within_protocol_limits b :
  0 < TOTAL_PINS b <= 128 /\
  0 < TOTAL_ANALOG_PINS b <= 16 /\
  TOTAL_ANALOG_PINS b <= TOTAL_PINS b /\
  8 * (TOTAL_PORTS b - 1) < TOTAL_PINS b <= 8 * TOTAL_PORTS b /\
  TOTAL_PORTS b <= 16.
Proof.
  unfold TOTAL_PORTS, TOTAL_PINS, TOTAL_ANALOG_PINS.
  destruct (cpu b); [destruct (six_analog_inputs b) |]; cbn; lia.
Qed.

(** X3. Without Servo.h ([MAX_SERVOS] left at 0) no pin is servo-capable,
    on either board. *)
Theorem no_servo_without_servo_library b p :
  MAX_SERVOS b <= 0 -> IS_PIN_SERVO b p = false.
Proof.
  table b; lia.
Qed.

Lemma no_servo_without_servo_library_witness :
  MAX_SERVOS mega <= 0 /\ IS_PIN_SERVO mega 5 = false.
Proof.
  assert (H : MAX_SERVOS mega <= 0) by (cbn; lia).
  split; [exact H |].
  exact (no_servo_without_servo_library mega 5 H).
Defined.

(** X4. An analog-capable pin is digital-capable too, except pins 20 and 21
    of the ATmega168/328P with eight analog inputs, which are analog-only. *)
Theorem analog_only_pins b p :
  IS_PIN_ANALOG b p = true ->
  (IS_PIN_DIGITAL b p = false <->
   cpu b = ATmega328P /\ six_analog_inputs b = false /\ (p = 20 \/ p = 21)).
Proof.
  table b; intros Ha.
  - destruct (six_analog_inputs _);
      (split; [intros Hd; repeat split; try reflexivity; lia
              | intros [_ [Hs Hp]]; try discriminate; lia]).
  - split; [lia | intros [Hc _]; discriminate].
Qed.

Lemma analog_only_pins_witness :
  IS_PIN_ANALOG mini 20 = true /\
  (IS_PIN_DIGITAL mini 20 = false <->
   cpu mini = ATmega328P /\ six_analog_inputs mini = false /\ (20 = 20 \/ 20 = 21)).
Proof.
  split; [reflexivity |].
  exact (analog_only_pins mini 20 eq_refl).
Defined.

(* ================================================================== *)
(** * Further properties of readPort *)

Lemma base_pin_period port : u8 ((port + 32) * 8) = u8 (port * 8).
Proof.
  unfold u8. replace ((port + 32) * 8) with (port * 8 + 1 * 256) by lia.
  apply Z.mod_add. lia.
Qed.

(** X5. With an empty mask [readPort] returns 0 and reads no pin. *)
Theorem readPort_empty_mask {hw : Type} `{Platform hw} b port (w : world hw) :
  result (readPort b port 0) w = Some 0 /\
  new_events (readPort b port 0) w = [] /\
  after (readPort b port 0) w = w.
Proof.
  assert (Hs : forall k, selected b (u8 (port * 8)) 0 k = false).
  { intros k. unfold selected, bit. rewrite Z.bits_0. apply andb_false_r. }
  assert (Hr : port_reads b (u8 (port * 8)) 0 = []).
  { unfold port_reads, bit_indices. cbn [flat_map]. now rewrite !Hs. }
  split; [| split].
  - unfold result. rewrite readPort_run. cbn [fst fold_left bit_indices].
    unfold line_out. now rewrite !Hs.
  - now rewrite readPort_events.
  - unfold after. rewrite readPort_run. cbn [snd].
    rewrite Hr, app_nil_r. apply world_eta.
Qed.

(** X6. Reading through a mask is reading the whole port and masking the
    byte: [readPort(port, m) = readPort(port, 0xFF) & m]; so reading through
    [m1 | m2] gives the OR of the two separate reads. *)
Theorem readPort_mask_is_land {hw : Type} `{Platform hw} b port (w : world hw) :
  exists full,
    result (readPort b port 0xFF) w = Some full /\
    (forall m, result (readPort b port m) w = Some (Z.land full m)) /\
    (forall m1 m2,
       result (readPort b port (Z.lor m1 m2)) w =
         Some (Z.lor (Z.land full m1) (Z.land full m2))).
Proof.
  destruct (readPort_bit b port 0xFF w) as [full [Hf [Hfb Hfbits]]].
  exists full. split; [exact Hf |].
  assert (Hm : forall m, result (readPort b port m) w = Some (Z.land full m)).
  { intros m.
    destruct (readPort_bit b port m w) as [out [Ho [Hob Hobits]]].
    rewrite Ho. f_equal. apply Z.bits_inj'. intros i Hi.
    rewrite Z.land_spec. fold (bit out i) (bit full i) (bit m i).
    destruct (Z.lt_ge_cases i 8) as [Hlt | Hge].
    - rewrite Hobits, Hfbits by lia. unfold selected.
      assert (E : bit 0xFF i = true).
      { assert (Hc : i = 0 \/ i = 1 \/ i = 2 \/ i = 3 \/ i = 4 \/ i = 5 \/
                     i = 6 \/ i = 7) by lia.
        destruct Hc as [-> | [-> | [-> | [-> | [-> | [-> | [-> | ->]]]]]]];
          reflexivity. }
      rewrite E.
      destruct (IS_PIN_DIGITAL b (u8 (port * 8) + i)), (bit m i),
        (truthy (digitalRead (u8 (port * 8) + i) (dev w))); reflexivity.
    - now rewrite (byte_high_bit out), (byte_high_bit full) by assumption. }
  split; [exact Hm |].
  intros m1 m2. rewrite Hm. f_equal. apply Z.land_lor_distr_r.
Qed.

(** X7. The base pin lives in an 8-bit variable, so port numbers are taken
    modulo 32: [readPort] on port [p + 32] is [readPort] on port [p], and so
    is the bit-by-bit [writePort]. *)
Theorem port_numbers_wrap_at_32 {hw : Type} `{Platform hw} b port v m (w : world hw) :
  readPort b (port + 32) m w = readPort b port m w /\
  writePort_loop b (port + 32) v m w = writePort_loop b port v m w.
Proof.
  split.
  - now rewrite !readPort_run, base_pin_period.
  - unfold writePort_loop. now rewrite base_pin_period.
Qed.

(* ================================================================== *)
(** * Further properties of writePort, register path *)

Lemma fast_port_cases port :
  port = 0 \/ port = 1 \/ port = 2 \/ (port <> 0 /\ port <> 1 /\ port <> 2).
Proof.
  lia.
Qed.

(** X8. The register path never changes the Rx and Tx pins: whatever the
    port, value and mask, bits 0 and 1 of PORTD (native pins 0 and 1) stay as
    they were. *)
Theorem register_path_keeps_rx_tx port v bm (w : world avr) :
  Z.testbit (PORTD (dev (after (writePort_fast port v bm) w))) 0 =
    Z.testbit (PORTD (dev w)) 0 /\
  Z.testbit (PORTD (dev (after (writePort_fast port v bm) w))) 1 =
    Z.testbit (PORTD (dev w)) 1.
Proof.
  destruct (fast_port_cases port) as [-> | [-> | [-> | [H0 [H1 H2]]]]].
  4: { now rewrite fast_other. }
  all: rewrite ?fast_port0, ?fast_port1, ?fast_port2; cbn [PORTD].
  2, 3: split; reflexivity.
  split; bits; bools.
Qed.

(** X9. The register path changes only register bits that are pins: bits 6
    and 7 of PORTB and of PORTC, which are no Arduino pins, keep their
    values for every port, value and mask. *)
Theorem register_path_keeps_non_pin_bits port v bm (w : world avr) k :
  is_byte v -> k = 6 \/ k = 7 ->
  Z.testbit (PORTB (dev (after (writePort_fast port v bm) w))) k =
    Z.testbit (PORTB (dev w)) k /\
  Z.testbit (PORTC (dev (after (writePort_fast port v bm) w))) k =
    Z.testbit (PORTC (dev w)) k.
Proof.
  intros Hv Hk.
  destruct (fast_port_cases port) as [-> | [-> | [-> | [H0 [H1 H2]]]]].
  4: { now rewrite fast_other. }
  all: rewrite ?fast_port0, ?fast_port1, ?fast_port2; cbn [PORTB PORTC].
  all: destruct Hk as [-> | ->]; split; try reflexivity.
  all: bits; bools.
Qed.

Lemma register_path_keeps_non_pin_bits_witness :
  is_byte 0xFF /\ (6 = 6 \/ 6 = 7) /\
  Z.testbit (PORTB (dev (after (writePort_fast 1 0xFF 0xFF) (quiet (mkAvr 0x40 0x40 0))))) 6 =
    Z.testbit (PORTB (dev (quiet (mkAvr 0x40 0x40 0)))) 6 /\
  Z.testbit (PORTC (dev (after (writePort_fast 1 0xFF 0xFF) (quiet (mkAvr 0x40 0x40 0))))) 6 =
    Z.testbit (PORTC (dev (quiet (mkAvr 0x40 0x40 0)))) 6.
Proof.
  assert (Hv : is_byte 0xFF) by (unfold is_byte; lia).
  assert (Hk : 6 = 6 \/ 6 = 7) by (left; reflexivity).
  split; [exact Hv |]. split; [exact Hk |].
  exact (register_path_keeps_non_pin_bits 1 0xFF 0xFF (quiet (mkAvr 0x40 0x40 0)) 6 Hv Hk).
Defined.

(** X10. The register path keeps the frame of the mask: a native pin that
    is not pin [port*8+i] of the written port with mask bit [i] set keeps
    its level, also when it shares a register with the written port (ports
    1 and 2 both sit on PORTC). *)
Theorem register_path_leaves_unmasked_pins port v bm (w : world avr) q :
  is_byte v -> is_byte bm -> is_byte port ->
  (0 <= q - port * 8 < 8 -> bit bm (q - port * 8) = false) ->
  digitalRead q (dev (after (writePort_fast port v bm) w)) = digitalRead q (dev w).
Proof.
  intros Hv Hm Hp Hq. now apply fast_masked_pins_only.
Qed.

Lemma register_path_leaves_unmasked_pins_witness :
  is_byte 0xFF /\ is_byte 0xC0 /\ is_byte 1 /\
  (0 <= 16 - 1 * 8 < 8 -> bit 0xC0 (16 - 1 * 8) = false) /\
  digitalRead 16 (dev (after (writePort_fast 1 0xFF 0xC0) (quiet (mkAvr 0 0x04 0)))) =
  digitalRead 16 (dev (quiet (mkAvr 0 0x04 0))).
Proof.
  assert (Hv : is_byte 0xFF) by (unfold is_byte; lia).
  assert (Hm : is_byte 0xC0) by (unfold is_byte; lia).
  assert (Hp : is_byte 1) by (unfold is_byte; lia).
  assert (Hq : 0 <= 16 - 1 * 8 < 8 -> bit 0xC0 (16 - 1 * 8) = false) by lia.
  split; [exact Hv |]. split; [exact Hm |]. split; [exact Hp |].
  split; [exact Hq |].
  exact (register_path_leaves_unmasked_pins 1 0xFF 0xC0 (quiet (mkAvr 0 0x04 0)) 16
           Hv Hm Hp Hq).
Defined.

(* ================================================================== *)
(** * Further properties of writePort, bit-by-bit path *)

Lemma u8_land_bit v i : 0 <= i < 8 -> u8 (Z.land v (Z.shiftl 1 i)) = Z.land v (Z.shiftl 1 i).
Proof.
  intros Hi. rewrite land_bit_value by lia.
  assert (Hc : i = 0 \/ i = 1 \/ i = 2 \/ i = 3 \/ i = 4 \/ i = 5 \/ i = 6 \/ i = 7)
    by lia.
  destruct Hc as [-> | [-> | [-> | [-> | [-> | [-> | [-> | ->]]]]]]];
    now destruct (bit v _).
Qed.

Section LoopTrace.
Context {hw : Type} `{Platform hw}.
Variable b : build.

Lemma loop_body_trace pin v bm i (w : world hw) :
  0 <= i < 8 -> 0 <= pin <= 248 ->
  trace (after (loop_body b pin v bm i) w) =
    trace w ++ (if selected b pin bm i
                then [EvWrite (pin + i) (Z.land v (Z.shiftl 1 i))]
                else []).
Proof.
  intros Hi Hpin.
  unfold loop_body, when, call_digitalWrite, after, ret, selected, PIN_TO_DIGITAL.
  rewrite truthy_land_bit by lia.
  assert (E : u8 (pin + i) = pin + i) by (apply u8_small; unfold is_byte; lia).
  rewrite E, u8_land_bit by lia.
  destruct (bit bm i), (IS_PIN_DIGITAL b (pin + i)); cbn [andb snd trace];
    now rewrite ?app_nil_r.
Qed.

Lemma for_range_trace pin v bm n : forall i0 (w : world hw),
  0 <= i0 -> i0 + Z.of_nat n <= 8 -> 0 <= pin <= 248 ->
  trace (after (for_range n i0 (loop_body b pin v bm)) w) =
    trace w ++
    flat_map (fun k => if selected b pin bm k
                       then [EvWrite (pin + k) (Z.land v (Z.shiftl 1 k))]
                       else [])
             (map (fun j => i0 + Z.of_nat j) (seq 0 n)).
Proof.
  induction n as [| n IH]; intros i0 w Hi Hn Hpin.
  - cbn. now rewrite app_nil_r.
  - cbn [for_range]. rewrite after_seq.
    assert (E : u8 (i0 + 1) = i0 + 1) by (apply u8_small; unfold is_byte; lia).
    rewrite E, IH, loop_body_trace by lia.
    cbn [seq map flat_map]. rewrite <- app_assoc. f_equal.
    replace (i0 + Z.of_nat 0) with i0 by lia. f_equal.
    rewrite <- seq_shift, map_map. f_equal.
    apply map_ext. intros j. lia.
Qed.

Lemma writePort_loop_events port v bm (w : world hw) :
  new_events (writePort_loop b port v bm) w = port_writes b (u8 (port * 8)) v bm.
Proof.
  unfold new_events, writePort_loop. rewrite after_bind_ret.
  rewrite for_range_trace by (try apply base_pin_range; cbn; lia).
  rewrite skipn_app_exact. reflexivity.
Qed.

End LoopTrace.

(** X11. The bit-by-bit [writePort] calls [digitalWrite] once for each
    masked, digital-capable pin of the port, in ascending pin order, with the
    value [value & (1 << i)], and makes no other call on the platform. *)
Theorem loop_path_writes_only_selected {hw : Type} `{Platform hw}
    b port v bm (w : world hw) :
  new_events (writePort_loop b port v bm) w = port_writes b (u8 (port * 8)) v bm /\
  (forall e, In e (new_events (writePort_loop b port v bm) w) ->
     exists i, 0 <= i < 8 /\
               e = EvWrite (u8 (port * 8) + i) (if bit v i then Z.shiftl 1 i else 0) /\
               IS_PIN_DIGITAL b (u8 (port * 8) + i) = true /\
               bit bm i = true) /\
  (forall i, 0 <= i < 8 ->
     IS_PIN_DIGITAL b (u8 (port * 8) + i) = true -> bit bm i = true ->
     In (EvWrite (u8 (port * 8) + i) (if bit v i then Z.shiftl 1 i else 0))
        (new_events (writePort_loop b port v bm) w)).
Proof.
  rewrite writePort_loop_events. split; [reflexivity |]. split.
  - intros e He. unfold port_writes in He. rewrite in_flat_map in He.
    destruct He as [k [Hk He]]. exists k.
    assert (Hr : 0 <= k < 8) by (unfold bit_indices in Hk; cbn [In] in Hk; lia).
    unfold selected in He.
    destruct (IS_PIN_DIGITAL b (u8 (port * 8) + k)) eqn:Hd;
      destruct (bit bm k) eqn:Hm; cbn [andb] in He; try contradiction.
    destruct He as [<- | []].
    rewrite land_bit_value by lia. repeat split; auto; lia.
  - intros i Hi Hd Hm. unfold port_writes. rewrite in_flat_map.
    exists i. split.
    + unfold bit_indices. cbn [In]. lia.
    + unfold selected. rewrite Hd, Hm. cbn [andb].
      rewrite land_bit_value by lia. now left.
Qed.

(* ================================================================== *)
(** * Further properties of the port pair *)

(** X12. Ports do not disturb each other: for two different ports below
    32, what [readPort] returns for one is the same before and after a
    [writePort] to the other, on every build (also for ports 1 and 2 of the
    ATmega168/328P, which share PORTC). *)
Theorem write_leaves_other_ports b p1 p2 v m m' (w : world (hardware (cpu b))) :
  is_byte v -> is_byte m -> 0 <= p1 < 32 -> 0 <= p2 < 32 -> p1 <> p2 ->
  result (readPort b p2 m') (after (writePort b p1 v m) w) =
  result (readPort b p2 m') w.
Proof.
  intros Hv Hm H1 H2 Hne.
  destruct (readPort_bit b p2 m' (after (writePort b p1 v m) w))
    as [out' [Hr' [Ho' Hb']]].
  destruct (readPort_bit b p2 m' w) as [out [Hr [Ho Hb]]].
  rewrite Hr', Hr. f_equal. apply byte_ext; try assumption.
  intros i Hi. rewrite Hb', Hb by assumption.
  rewrite base_pin_small by assumption.
  unfold selected.
  destruct (IS_PIN_DIGITAL b (p2 * 8 + i)) eqn:Hd; [| reflexivity].
  rewrite writePort_digital_pins by assumption.
  unfold written.
  replace ((0 <=? p2 * 8 + i - p1 * 8) && (p2 * 8 + i - p1 * 8 <? 8))
    with false by lia.
  reflexivity.
Qed.

Lemma write_leaves_other_ports_witness :
  is_byte 0xFF /\ is_byte 0xFF /\ 0 <= 1 < 32 /\ 0 <= 2 < 32 /\ 1 <> 2 /\
  result (readPort uno 2 0xFF) (after (writePort uno 1 0xFF 0xFF) (quiet (mkAvr 0 0x14 0))) =
  result (readPort uno 2 0xFF) (quiet (mkAvr 0 0x14 0)).
Proof.
  assert (Hv : is_byte 0xFF) by (unfold is_byte; lia).
  assert (H1 : 0 <= 1 < 32) by lia.
  assert (H2 : 0 <= 2 < 32) by lia.
  assert (Hne : 1 <> 2) by lia.
  split; [exact Hv |]. split; [exact Hv |]. split; [exact H1 |].
  split; [exact H2 |]. split; [exact Hne |].
  exact (write_leaves_other_ports uno 1 2 0xFF 0xFF 0xFF (quiet (mkAvr 0 0x14 0))
           Hv Hv H1 H2 Hne).
Defined.

(** X13. What a read returns after a write, for any read mask: on the pins
    the write masked it is the written value bit, on the others the level
    that was there before.  With [r0] the byte [readPort(port, m')] returned
    before the write, after [writePort(port, v, m)] it returns
    [(v & m & m' & digital) | (r0 & ~m)]. *)
Theorem read_after_write b port v m m' r0 (w : world (hardware (cpu b))) :
  is_byte v -> is_byte m -> 0 <= port < 32 ->
  result (readPort b port m') w = Some r0 ->
  result (readPort b port m') (after (writePort b port v m) w) =
    Some (Z.lor (Z.land (Z.land v m) (Z.land m' (digital_bits b port)))
                (Z.land r0 (Z.lnot m))).
Proof.
  intros Hv Hm Hp H0.
  destruct (readPort_bit b port m' (after (writePort b port v m) w))
    as [out' [Hr' [Ho' Hb']]].
  destruct (readPort_bit b port m' w) as [out [Hr [Ho Hb]]].
  rewrite Hr in H0. injection H0 as <-.
  rewrite Hr'. f_equal. apply Z.bits_inj'. intros i Hi.
  rewrite Z.lor_spec, !Z.land_spec, Z.lnot_spec by lia.
  fold (bit out' i) (bit out i) (bit v i) (bit m i) (bit m' i)
       (bit (digital_bits b port) i).
  rewrite digital_bits_bit by lia.
  destruct (Z.lt_ge_cases i 8) as [Hlt | Hge].
  - rewrite Hb', Hb by lia. rewrite base_pin_small by lia.
    replace (i <? 8) with true by lia. unfold selected. cbn [andb].
    destruct (IS_PIN_DIGITAL b (port * 8 + i)) eqn:Hd.
    + rewrite writePort_digital_pins by assumption.
      unfold written. replace (port * 8 + i - port * 8) with i by lia.
      rewrite Hd. replace ((0 <=? i) && (i <? 8)) with true by lia.
      cbn [andb]. rewrite andb_true_r.
      destruct (bit m i), (bit m' i), (bit v i),
        (truthy (digitalRead (port * 8 + i) (dev w))); reflexivity.
    + cbn [andb]. now rewrite !andb_false_r.
  - rewrite (byte_high_bit out'), (byte_high_bit out), (byte_high_bit v)
      by assumption.
    reflexivity.
Qed.

Lemma read_after_write_witness :
  is_byte 0x00 /\ is_byte 0x18 /\ 0 <= 0 < 32 /\
  result (readPort uno 0 0xFF) (quiet (mkAvr 0 0 0xF8)) = Some 0xF8 /\
  result (readPort uno 0 0xFF) (after (writePort uno 0 0x00 0x18) (quiet (mkAvr 0 0 0xF8))) =
    Some (Z.lor (Z.land (Z.land 0x00 0x18) (Z.land 0xFF (digital_bits uno 0)))
                (Z.land 0xF8 (Z.lnot 0x18))).
Proof.
  assert (Hv : is_byte 0x00) by (unfold is_byte; lia).
  assert (Hm : is_byte 0x18) by (unfold is_byte; lia).
  assert (Hp : 0 <= 0 < 32) by lia.
  assert (H0 : result (readPort uno 0 0xFF) (quiet (mkAvr 0 0 0xF8)) = Some 0xF8)
    by reflexivity.
  split; [exact Hv |]. split; [exact Hm |]. split; [exact Hp |].
  split; [exact H0 |].
  exact (read_after_write uno 0 0x00 0x18 0xFF 0xF8 (quiet (mkAvr 0 0 0xF8))
           Hv Hm Hp H0).
Defined.

Lemma testbit_u8_any x i :
  Z.testbit (u8 x) i = (0 <=? i) && (i <? 8) && Z.testbit x i.
Proof.
  destruct (Z.lt_ge_cases i 0) as [Hneg | Hpos].
  - rewrite !Z.testbit_neg_r by lia. now replace (0 <=? i) with false by lia.
  - rewrite testbit_u8 by lia. now replace (0 <=? i) with true by lia.
Qed.

(** Bits of a register expression at a symbolic index [i >= 0]. *)
Ltac bits_any :=
  unfold bit;
  repeat (rewrite testbit_u8_any
          || rewrite Z.lor_spec || rewrite Z.land_spec
          || (rewrite Z.lnot_spec by lia)
          || (rewrite Z.shiftr_spec by lia)
          || (rewrite Z.shiftl_spec by lia)).

Ltac bools_any :=
  repeat match goal with
  | |- context [Z.testbit ?x ?i] =>
      let t := fresh "t" in generalize (Z.testbit x i); intro t
  end;
  repeat match goal with
  | |- context [?a <=? ?c] =>
      let t := fresh "t" in generalize (a <=? c); intro t
  | |- context [?a <? ?c] =>
      let t := fresh "t" in generalize (a <? c); intro t
  end;
  repeat match goal with t : bool |- _ => destruct t end;
  try reflexivity; try discriminate.

(** On the register path, writing one value through two masks in turn is
    writing it through their union. *)
Lemma fast_mask_union port v m1 m2 (w : world avr) :
  dev (after (writePort_fast port v m2) (after (writePort_fast port v m1) w)) =
  dev (after (writePort_fast port v (Z.lor m1 m2)) w).
Proof.
  destruct (fast_port_cases port) as [-> | [-> | [-> | [H0 [H1 H2]]]]].
  4: { now rewrite !fast_other. }
  - rewrite (fast_port0 v m2 (after _ w)), !fast_port0. cbn [PORTB PORTC PORTD].
    f_equal. apply byte_ext; try apply u8_range.
    intros i Hi. bits_any. bools_any.
  - rewrite (fast_port1 v m2 (after _ w)), !fast_port1. cbn [PORTB PORTC PORTD].
    f_equal; apply byte_ext; try apply u8_range;
      intros i Hi; bits_any; bools_any.
  - rewrite (fast_port2 v m2 (after _ w)), !fast_port2. cbn [PORTB PORTC PORTD].
    f_equal. apply byte_ext; try apply u8_range.
    intros i Hi. bits_any. bools_any.
Qed.

(** X14. Writing the same value through mask [m1] and then through mask
    [m2] leaves every pin as one write through [m1 | m2] does, on every
    build and for every port. *)
Theorem write_masks_compose b port v m1 m2 (w : world (hardware (cpu b))) q :
  digitalRead q (dev (after (writePort b port v m2)
                            (after (writePort b port v m1) w))) =
  digitalRead q (dev (after (writePort b port v (Z.lor m1 m2)) w)).
Proof.
  destruct b as [[|] n ms]; cbn in w |- *.
  - now rewrite fast_mask_union.
  - set (bb := mkBuild ATmega2560 n ms).
    assert (R := @writePort_loop_read pin_levels levels_platform bb
                   (fun p x h _ => levels_write_same p x h)
                   (fun p q' x h _ Hne => levels_write_other p q' x h Hne)).
    cbn [digitalRead levels_platform] in R. rewrite !R.
    unfold written, bit. rewrite Z.lor_spec.
    destruct ((0 <=? q - u8 (port * 8)) && (q - u8 (port * 8) <? 8)),
      (Z.testbit m1 (q - u8 (port * 8))), (Z.testbit m2 (q - u8 (port * 8))),
      (IS_PIN_DIGITAL bb q); reflexivity.
Qed.

Lemma fast_keeps_pins_0_1 port v bm (w : world avr) q :
  q = 0 \/ q = 1 ->
  avr_digitalRead q (dev (after (writePort_fast port v bm) w)) =
  avr_digitalRead q (dev w).
Proof.
  intros Hq.
  destruct (fast_port_cases port) as [-> | [-> | [-> | [H0 [H1 H2]]]]].
  4: { now rewrite fast_other. }
  all: rewrite ?fast_port0, ?fast_port1, ?fast_port2.
  all: destruct Hq as [-> | ->]; avr_reads; try reflexivity.
  all: bits; bools.
Qed.

(** X15. On the ATmega168/328P, for ports below 32, the register path and
    the bit-by-bit form can leave different levels only on the pins the table
    keeps for the BTLE link (2 and 9 to 13); on every other native pin they
    agree. *)
Theorem register_path_differs_only_on_link_pins b port v m (w : world avr) q :
  cpu b = ATmega328P -> is_byte v -> is_byte m -> 0 <= port < 32 ->
  btle_link_pin q = false ->
  avr_digitalRead q (dev (after (writePort_fast port v m) w)) =
  avr_digitalRead q (dev (after (writePort_loop b port v m) w)).
Proof.
  intros Hc Hv Hm Hp Hq.
  destruct (IS_PIN_DIGITAL b q) eqn:Hd.
  - now apply fast_and_loop_agree_on_digital_pins.
  - rewrite loop_on_avr_read by assumption.
    unfold written. rewrite Hd, andb_false_r.
    unfold IS_PIN_DIGITAL in Hd. rewrite Hc in Hd. unfold btle_link_pin in Hq.
    destruct (Z.lt_ge_cases q 0) as [Hneg | Hpos];
      [now rewrite !avr_read_none by lia |].
    destruct (Z.lt_ge_cases 19 q) as [Hbig | Hsmall];
      [now rewrite !avr_read_none by lia |].
    apply fast_keeps_pins_0_1. lia.
Qed.

Lemma register_path_differs_only_on_link_pins_witness :
  cpu uno = ATmega328P /\ is_byte 0xFF /\ is_byte 0xFF /\ 0 <= 1 < 32 /\
  btle_link_pin 8 = false /\
  avr_digitalRead 8 (dev (after (writePort_fast 1 0xFF 0xFF) (quiet all_low_avr))) =
  avr_digitalRead 8 (dev (after (writePort_loop uno 1 0xFF 0xFF) (quiet all_low_avr))).
Proof.
  assert (Hv : is_byte 0xFF) by (unfold is_byte; lia).
  assert (Hp : 0 <= 1 < 32) by lia.
  split; [reflexivity |]. split; [exact Hv |]. split; [exact Hv |].
  split; [exact Hp |]. split; [reflexivity |].
  exact (register_path_differs_only_on_link_pins uno 1 0xFF 0xFF (quiet all_low_avr) 8
           eq_refl Hv Hv Hp eq_refl).
Defined.

(** X16. On the Mega, which compiles the bit-by-bit form, [writePort]
    changes the level of a pin only if the pin is pin [port*8+i] of the
    written port, bit [i] of the mask is set and the pin is digital-capable
    (ports below 32). *)
Theorem mega_write_changes_only_masked_digital_pins n ms port v bm
    (w : world pin_levels) q :
  0 <= port < 32 ->
  digitalRead q (dev (after (writePort (mkBuild ATmega2560 n ms) port v bm) w)) <>
  digitalRead q (dev w) ->
  exists i, 0 <= i < 8 /\ q = port * 8 + i /\ bit bm i = true /\
            IS_PIN_DIGITAL (mkBuild ATmega2560 n ms) q = true.
Proof.
  intros Hp Hch.
  destruct (writePort_loop_frame _ _ _ _ _ _ Hch) as [i [Hi [Hq [Hm Hd]]]].
  exists i. rewrite base_pin_small in Hq by assumption. now repeat split.
Qed.

Lemma mega_write_changes_only_masked_digital_pins_witness :
  0 <= 0 < 32 /\
  digitalRead 2 (dev (after (writePort mega 0 0x04 0x04) (quiet (fun _ => false)))) <>
  digitalRead 2 (dev (quiet (fun _ : Z => false))) /\
  exists i, 0 <= i < 8 /\ 2 = 0 * 8 + i /\ bit 0x04 i = true /\
            IS_PIN_DIGITAL mega 2 = true.
Proof.
  assert (Hp : 0 <= 0 < 32) by lia.
  assert (Hch : digitalRead 2 (dev (after (writePort mega 0 0x04 0x04)
                                          (quiet (fun _ => false)))) <>
                digitalRead 2 (dev (quiet (fun _ : Z => false))))
    by (vm_compute; discriminate).
  split; [exact Hp |]. split; [exact Hch |].
  exact (mega_write_changes_only_masked_digital_pins (Some 16) 0 0 0x04 0x04
           (quiet (fun _ => false)) 2 Hp Hch).
Defined.

Lemma fast_value_outside_mask port v m (w : world avr) :
  dev (after (writePort_fast port (Z.land v m) m) w) =
  dev (after (writePort_fast port v m) w).
Proof.
  destruct (fast_port_cases port) as [-> | [-> | [-> | [H0 [H1 H2]]]]].
  4: { now rewrite !fast_other. }
  all: rewrite ?fast_port0, ?fast_port1, ?fast_port2.
  all: f_equal; apply byte_ext; try apply u8_range;
    intros i Hi; bits_any; bools_any.
Qed.

(** X17. Value bits outside the mask do not matter: [writePort(port, v, m)]
    leaves every pin as [writePort(port, v & m, m)] does, on every build and
    for every port. *)
Theorem write_ignores_unmasked_value_bits b port v m (w : world (hardware (cpu b))) q :
  digitalRead q (dev (after (writePort b port (Z.land v m) m) w)) =
  digitalRead q (dev (after (writePort b port v m) w)).
Proof.
  destruct b as [[|] n ms]; cbn in w |- *.
  - now rewrite fast_value_outside_mask.
  - set (bb := mkBuild ATmega2560 n ms).
    assert (R := @writePort_loop_read pin_levels levels_platform bb
                   (fun p x h _ => levels_write_same p x h)
                   (fun p q' x h _ Hne => levels_write_other p q' x h Hne)).
    cbn [digitalRead levels_platform] in R. rewrite !R.
    unfold written, bit. rewrite Z.land_spec.
    destruct ((0 <=? q - u8 (port * 8)) && (q - u8 (port * 8) <? 8)),
      (Z.testbit m (q - u8 (port * 8))), (Z.testbit v (q - u8 (port * 8))),
      (IS_PIN_DIGITAL bb q); reflexivity.
Qed.
